(** * evaluate_cifar.py: linear evaluation / fine-tuning harness

    A shallow embedding of [evaluate_cifar.py].  The script's own logic
    (top-k accuracy, the running-average meter, the train/validation split,
    the best-accuracy bookkeeping, checkpoint resume, the signal handlers)
    is translated function by function.  What belongs to the framework
    (tensors, forward passes, the optimiser, [random.shuffle]) enters as the
    fields of the class [Framework], or as a small model of its documented
    behaviour where the script's control flow depends on it.

    Python floats are idealised as exact rationals ([Q]); integers are [Z]. *)

From Stdlib Require Import ZArith QArith Qminmax List Lia Lqa Permutation Sorted.
From stdpp Require Import base strings gmap.
Import ListNotations.

Local Open Scope Z_scope.

(** ** Python exceptions and results *)

Inductive exn : Type :=
| ZeroDivisionError
| ValueError
| RuntimeError
| IndexError
| KeyError (key : string)
| AssertionError (msg : option string)   (* [assert cond, msg] *)
| SystemExit.

Inductive result (A : Type) : Type :=
| Ok (a : A)
| Raise (e : exn).
Arguments Ok {A} a.
Arguments Raise {A} e.

Definition rbind {A B} (r : result A) (f : A -> result B) : result B :=
  match r with
  | Ok a => f a
  | Raise e => Raise e
  end.

(** A computation over a mutable store [S] that may raise.  The store that
    comes back with [Raise] holds the mutations done before the exception. *)
Definition M (S A : Type) : Type := S -> result A * S.

Definition ret {S A} (a : A) : M S A := fun s => (Ok a, s).
Definition raise {S A} (e : exn) : M S A := fun s => (Raise e, s).
Definition bind {S A B} (c : M S A) (f : A -> M S B) : M S B :=
  fun s => match c s with
           | (Ok a, s') => f a s'
           | (Raise e, s') => (Raise e, s')
           end.
Definition get {S} : M S S := fun s => (Ok s, s).
Definition modify {S} (f : S -> S) : M S unit := fun s => (Ok tt, f s).
Definition lift {S A} (r : result A) : M S A := fun s => (r, s).

Declare Scope py_scope.
Delimit Scope py_scope with py.
Notation "x <- c ;; k" := (bind c (fun x => k))
  (at level 100, c at next level, right associativity) : py_scope.
Notation "c ;;; k" := (bind c (fun _ => k))
  (at level 100, right associativity) : py_scope.
Notation "x <~ r ;; k" := (rbind r (fun x => k))
  (at level 100, r at next level, right associativity) : py_scope.

(** A loop that carries local variables [b] through its iterations. *)
Fixpoint fold_M {S A B} (f : B -> A -> M S B) (xs : list A) (b : B) : M S B :=
  match xs with
  | [] => ret b
  | x :: xs' => bind (f b x) (fold_M f xs')
  end.

(** The same without a store. *)
Fixpoint fold_result {A B} (f : B -> A -> result B) (xs : list A) (b : B) : result B :=
  match xs with
  | [] => Ok b
  | x :: xs' => rbind (f b x) (fold_result f xs')
  end.

(** [for x in xs: body] over a store. *)
Fixpoint for_each {S A} (xs : list A) (body : A -> M S unit) : M S unit :=
  match xs with
  | [] => ret tt
  | x :: xs' => bind (body x) (fun _ => for_each xs' body)
  end.

(** ** Python built-ins used by the script *)

Definition len {A} (l : list A) : Z := Z.of_nat (length l).

(** [l[:k]] and [l[k:]] for an integer [k] of either sign. *)
Definition slice_to {A} (k : Z) (l : list A) : list A :=
  if 0 <=? k then firstn (Z.to_nat k) l
  else firstn (length l - Z.to_nat (- k)) l.

Definition slice_from {A} (k : Z) (l : list A) : list A :=
  if 0 <=? k then skipn (Z.to_nat k) l
  else skipn (length l - Z.to_nat (- k)) l.

(** [range(a, b)] and [enumerate(l, start=s)]. *)
Definition py_range2 (a b : Z) : list Z :=
  map (fun i => a + Z.of_nat i) (seq 0 (Z.to_nat (b - a))).

Definition enumerate {A} (l : list A) (start : Z) : list (Z * A) :=
  combine (map (fun i => start + Z.of_nat i) (seq 0 (length l))) l.

(** [max(xs)] of a sequence of integers; [ValueError] on the empty one. *)
Definition py_max_seq (xs : list Z) : result Z :=
  match xs with
  | [] => Raise ValueError
  | x :: xs' => Ok (fold_left Z.max xs' x)
  end.

(** [max(a, b)] on numbers: the first argument unless the second is larger. *)
Definition py_max (a b : Q) : Q :=
  if Qlt_le_dec a b then b else a.

(** [int(x)]: truncation toward zero of the rational [num / den]. *)
Definition py_int (num den : Z) : Z := Z.quot num den.

(** A loop that collects one result per element and stops at the first
    exception. *)
Fixpoint map_result {A B} (f : A -> result B) (l : list A) : result (list B) :=
  match l with
  | [] => Ok []
  | x :: l' =>
      match f x with
      | Ok y => match map_result f l' with
                | Ok ys => Ok (y :: ys)
                | Raise e => Raise e
                end
      | Raise e => Raise e
      end
  end.


(** Outcome of a computation from a given store: [Qok] holds of a normal
    return and the store it leaves, [Qex] of an exception and the store at
    the moment it is raised. *)
Definition post {S A} (c : M S A) (s : S)
    (Qok : A -> S -> Prop) (Qex : exn -> S -> Prop) : Prop :=
  match c s with
  | (Ok a, s') => Qok a s'
  | (Raise e, s') => Qex e s'
  end.

(** The same for a computation without a store: every exception it can
    raise satisfies [P]. *)
Definition raises {A} (P : exn -> Prop) (r : result A) : Prop :=
  match r with
  | Ok _ => True
  | Raise e => P e
  end.

(** ** AverageMeter *)

Module AverageMeter.

Record t : Type := mk {
  name : string;
  fmt : string;
  val : Q;
  avg : Q;
  sum : Q;
  count : Z
}.

Definition reset (self : t) : t :=
  {| name := name self; fmt := fmt self;
     val := 0; avg := 0; sum := 0; count := 0 |}.

Definition __init__ (name fmt : string) : t :=
  reset {| name := name; fmt := fmt; val := 0; avg := 0; sum := 0; count := 0 |}.

(** [update(val, n)]: the three assignments happen before the division, so
    a [ZeroDivisionError] leaves [val], [sum] and [count] updated and [avg]
    stale. *)
Definition update (v : Q) (n : Z) : M t unit :=
  fun self =>
    let s := (sum self + v * inject_Z n)%Q in
    let c := count self + n in
    let self1 := {| name := name self; fmt := fmt self;
                    val := v; avg := avg self; sum := s; count := c |} in
    if c =? 0 then (Raise ZeroDivisionError, self1)
    else (Ok tt,
          {| name := name self; fmt := fmt self;
             val := v; avg := (s / inject_Z c)%Q; sum := s; count := c |}).

(** A sequence of [update] calls on one meter. *)
Definition updates (us : list (Q * Z)) : M t unit :=
  for_each us (fun u => update (fst u) (snd u)).

(** The sums a meter accumulates, written independently of the meter. *)
Fixpoint weighted_sum (us : list (Q * Z)) : Q :=
  match us with
  | [] => 0%Q
  | (v, n) :: us' => (v * inject_Z n + weighted_sum us')%Q
  end.

Fixpoint total_count (us : list (Q * Z)) : Z :=
  match us with
  | [] => 0
  | (_, n) :: us' => n + total_count us'
  end.

End AverageMeter.

(** ** Tensor operations used by [accuracy]

    A 2-D tensor is the list of its rows; a 1-D tensor is a list.  Scores are
    compared as rationals (no NaN). *)

Definition score (row : list Q) (i : nat) : Q := nth i row 0%Q.

(** Class indices of one row in descending order of score; among equal scores
    the lower index comes first. *)
Fixpoint insert_desc (row : list Q) (i : nat) (l : list nat) : list nat :=
  match l with
  | [] => [i]
  | j :: l' =>
      if Qle_bool (score row j) (score row i) then i :: l
      else j :: insert_desc row i l'
  end.

Definition argsort_desc (row : list Q) : list nat :=
  fold_right (insert_desc row) [] (seq 0 (length row)).

(** The index half of [row.topk(k, largest=True, sorted=True)]: it raises when
    [k] is out of range for the row. *)
Definition topk_row (k : Z) (row : list Q) : result (list Z) :=
  if (k <? 0) || (len row <? k) then Raise RuntimeError
  else Ok (map Z.of_nat (firstn (Z.to_nat k) (argsort_desc row))).

(** [output.topk(k, 1, True, True)], indices only. *)
Definition tensor_topk (k : Z) (output : list (list Q)) : result (list (list Z)) :=
  map_result (topk_row k) output.

(** [m.t()] of a tensor with [ncols] columns. *)
Definition transpose (ncols : nat) (m : list (list Z)) : list (list Z) :=
  map (fun j => map (fun r => nth j r 0) m) (seq 0 ncols).

(** [target.view(1, -1).expand_as(pred)] for [pred] of shape [rows x cols]:
    the single row is repeated; a one-element target is also broadcast along
    the columns; any other length mismatch raises. *)
Definition expand_as (target : list Z) (rows cols : nat) : result (list (list Z)) :=
  if (length target =? cols)%nat then Ok (repeat target rows)
  else match target with
       | [t] => Ok (repeat (repeat t cols) rows)
       | _ => Raise RuntimeError
       end.

(** [x.reshape(-1).float().sum(0, keepdim=True)] of a boolean tensor, as the
    number it holds. *)
Definition count_true (x : list (list bool)) : Q :=
  inject_Z (len (List.filter (fun b : bool => b) (concat x))).

(** ** accuracy *)

Definition accuracy (output : list (list Q)) (target : list Z) (topk : list Z)
  : result (list (list Q)) :=
  (maxk <~ py_max_seq topk ;;
   let batch_size := len target in
   pred <~ tensor_topk maxk output ;;
   let pred := transpose (Z.to_nat maxk) pred in
   expanded <~ expand_as target (Z.to_nat maxk) (length output) ;;
   let correct := zip_with (zip_with Z.eqb) pred expanded in
   map_result
     (fun k =>
        let correct_k := count_true (slice_to k correct) in
        if batch_size =? 0 then Raise ZeroDivisionError
        else Ok [(correct_k * (100 / inject_Z batch_size))%Q])
     topk)%py.

(** *** What top-k accuracy means, stated without sorting

    Class [c] is ranked before class [t] in a row when it scores higher, or
    scores the same and has the lower index.  The rank of [t] is the number
    of classes ranked before it; [t] is among the [k] highest-scoring classes
    when its rank is below [k]. *)
Definition beats (row : list Q) (c t : nat) : bool :=
  negb (Qle_bool (score row c) (score row t))
  || (Qeq_bool (score row c) (score row t) && (c <? t)%nat).

(** The same order as a proposition. *)
Definition ranked_before (row : list Q) (c t : nat) : Prop :=
  (score row t < score row c)%Q \/
  ((score row c == score row t)%Q /\ (c < t)%nat).

Definition rank (row : list Q) (t : nat) : nat :=
  length (List.filter (fun c => beats row c t) (seq 0 (length row))).

Definition in_topk (k : Z) (row : list Q) (t : Z) : bool :=
  (0 <=? t) && (t <? len row) && (Z.of_nat (rank row (Z.to_nat t)) <? k).

(** Number of rows whose target label is among the [k] highest-scoring
    classes of the row. *)
Definition topk_hits (k : Z) (output : list (list Q)) (target : list Z) : Z :=
  len (List.filter (fun rt => in_topk k (fst rt) (snd rt)) (combine output target)).


(** A batch of three samples over five classes, used in the examples. *)
Definition example_scores : list (list Q) :=
  [[1#10; 7#10; 2#10; 0; 0]; [5#10; 1#10; 4#10; 0; 0]; [3#10; 3#10; 9#10; 0; 0]]%Q.

Definition example_labels : list Z := [1; 2; 0].

(** ** Call histories

    The two utilities as a caller sees them: a history of calls runs against
    one meter, exceptions are caught by the caller and the meter lives on.
    Each call yields what the caller can observe of it: the list [accuracy]
    returns, or the meter's [avg] after an [update]. *)

Inductive call : Type :=
| CallAccuracy (output : list (list Q)) (target : list Z) (topk : list Z)
| CallUpdate (v : Q) (n : Z)
| CallReset.

Inductive observation : Type :=
| Returned (res : result (list (list Q)))
| AvgAfter (raised : result unit) (avg : Q)
| NoValue.

Definition exec (c : call) (meter : AverageMeter.t) : observation * AverageMeter.t :=
  match c with
  | CallAccuracy output target topk => (Returned (accuracy output target topk), meter)
  | CallUpdate v n =>
      let '(r, meter') := AverageMeter.update v n meter in
      (AvgAfter r (AverageMeter.avg meter'), meter')
  | CallReset => (NoValue, AverageMeter.reset meter)
  end.



(** ** Signal handling in [main]

    The process as far as signals go: its environment, the commands it has
    passed to [os.system], and the handler table set by [signal.signal]. *)

Inductive signal : Type := SIGUSR1 | SIGTERM.

Record OS : Type := mkOS {
  environ : gmap string string;
  commands : list string
}.

(** [os.getenv(name)] inside an f-string: the value, or the text [None]. *)
Definition getenv_str (name : string) (os : OS) : string :=
  match environ os !! name with
  | Some v => v
  | None => "None"
  end.

Definition os_system (cmd : string) : M OS unit :=
  modify (fun os => {| environ := environ os; commands := commands os ++ [cmd] |}).

(** [exit()] raises [SystemExit], which ends the process. *)
Definition handle_sigusr1 (signum : signal) : M OS unit :=
  (os <- get ;;
   os_system ("scontrol requeue " +:+ getenv_str "SLURM_JOB_ID" os) ;;;
   raise SystemExit)%py.

Definition handle_sigterm (signum : signal) : M OS unit :=
  ret tt.

Inductive disposition : Type :=
| SIG_DFL
| Handler (h : signal -> M OS unit).

Definition handler_table : Type := signal -> disposition.

Definition default_handlers : handler_table := fun _ => SIG_DFL.

Definition signal_signal (sig : signal) (h : signal -> M OS unit)
    (tbl : handler_table) : handler_table :=
  fun s => match sig, s with
           | SIGUSR1, SIGUSR1 | SIGTERM, SIGTERM => Handler h
           | _, _ => tbl s
           end.

(** The part of [main] that touches the handler table. *)
Definition main_install_handlers (os : OS) (tbl : handler_table) : handler_table :=
  if decide (is_Some (environ os !! "SLURM_JOB_ID")) then
    signal_signal SIGTERM handle_sigterm (signal_signal SIGUSR1 handle_sigusr1 tbl)
  else tbl.

(** Delivery of a signal: [None] stands for the default action of the
    operating system (the process is killed, no Python code runs). *)
Definition deliver (sig : signal) (tbl : handler_table) (os : OS)
  : option (result unit * OS) :=
  match tbl sig with
  | SIG_DFL => None
  | Handler h => Some (h sig os)
  end.

(** ** The train/validation split

    [random.Random(seed).shuffle] is the parameter [shuffle]; the rest is the
    arithmetic and the slicing of [main_worker].  [int(p * n / 100)] and
    [int(0.1 * m)] are taken on exact quotients. *)

Definition py_range (n : Z) : list nat := seq 0 (Z.to_nat n).

Definition num_train_of (train_percent n : Z) : Z := py_int (train_percent * n) 100.

Definition num_val_of (num_train : Z) : Z := py_int num_train 10.

Definition split_train_val (shuffle : Z -> list nat -> list nat)
    (train_percent n : Z) : list nat * list nat :=
  let seed := 10 in
  let num_train := num_train_of train_percent n in
  let train_idx := shuffle seed (py_range n) in
  let num_val := num_val_of num_train in
  let num_train := num_train - num_val in
  let val_idx := slice_from num_train train_idx in
  let train_idx := slice_to num_train train_idx in
  (train_idx, val_idx).

(** ** The framework as [main_worker] uses it

    Tensors, images and the states of the optimiser and of the scheduler are
    opaque.  A module's [state_dict()] is the list of its named tensors in
    registration order; a file written by [torch.save] holding a plain dict
    of tensors is a finite map. *)

Class Framework : Type := {
  Tensor : Type;
  tensor_eq_dec :: EqDecision Tensor;        (* [torch.equal] *)
  Images : Type;
  OptState : Type;                           (* momentum buffers of [optim.SGD] *)
  Scheduler : Type;                          (* state of [CosineAnnealingLR] *)
  (* [models.resnetNN(num_classes=n).state_dict()] of a fresh model *)
  resnet : string -> Z -> list (string * Tensor);
  (* keys of [named_parameters()]; the other keys are buffers *)
  is_parameter : string -> bool;
  normal_ : Q -> Q -> Tensor -> Tensor;
  zero_ : Tensor -> Tensor;
  size0 : Images -> Z;                       (* [images.size(0)] *)
  (* [model(images)], in training or in evaluation mode *)
  forward : bool -> list (string * Tensor) -> Images -> list (list Q);
  criterion : list (list Q) -> list Z -> Q;  (* [nn.CrossEntropyLoss] *)
  dist_reduce : Q -> Q;                      (* what rank 0 holds after [reduce] *)
  SGD_init : Q -> Q -> OptState;
  (* value of a parameter that [backward(); step()] updates *)
  sgd_parameter : list Q -> OptState -> list (string * Tensor) -> Images -> list Z
                  -> string -> Tensor -> Tensor;
  sgd_state : list Q -> OptState -> list (string * Tensor) -> Images -> list Z -> OptState;
  (* value of a buffer after a forward pass in training mode *)
  forward_buffer : list (string * Tensor) -> Images -> string -> Tensor -> Tensor;
  CosineAnnealingLR : list Q -> Z -> Scheduler;
  (* [scheduler.step()]: the new scheduler and the learning rates it sets *)
  scheduler_step : Scheduler -> list Q -> Scheduler * list Q;
  shuffle : Z -> list nat -> list nat;       (* [random.Random(seed).shuffle] *)
  train_dataset_len : string -> Z;
  (* the three [DataLoader]s, as the batches one pass yields; the arguments
     are the dataset, the indices of the subset, the batch size and, for the
     training loader, the rank and the epoch set by [set_epoch] *)
  train_batches : string -> list nat -> Z -> Z -> Z -> list (Images * list Z);
  val_batches : string -> list nat -> Z -> list (Images * list Z);
  test_batches : string -> Z -> list (Images * list Z);
  elapsed : Z -> Z                           (* [int(time.time() - start_time)] *)
}.

(** *** Ordered dicts of named values *)

Fixpoint sd_get {T} (sd : list (string * T)) (k : string) : option T :=
  match sd with
  | [] => None
  | (k', v) :: sd' => if decide (k' = k) then Some v else sd_get sd' k
  end.

(** In-place change of the tensor registered under [k]. *)
Definition sd_alter {T} (k : string) (f : T -> T) (sd : list (string * T))
  : list (string * T) :=
  map (fun kv => (fst kv, if decide (fst kv = k) then f (snd kv) else snd kv)) sd.

(** [module.load_state_dict(d, strict=False)], where [d] has the keys [keys]
    and the lookup [get]: every tensor of the module found in [d] is
    overwritten; the result lists the module's keys that [d] lacks, in the
    module's order, and the keys of [d] the module does not have. *)
Definition load_state_dict {T} (model : list (string * T))
    (keys : list string) (get : string -> option T)
  : list (string * T) * (list string * list string) :=
  (map (fun kv => (fst kv, default (snd kv) (get (fst kv)))) model,
   (List.filter (fun k => match get k with None => true | Some _ => false end)
      (map fst model),
    List.filter (fun k => negb (bool_decide (k ∈ map fst model))) keys)).

(** [strict=True]: any missing or unexpected key is an error. *)
Definition load_state_dict_strict {T} (model : list (string * T))
    (sd : list (string * T)) : result (list (string * T)) :=
  match load_state_dict model (map fst sd) (sd_get sd) with
  | (model', ([], [])) => Ok model'
  | _ => Raise RuntimeError
  end.

(** *** The optimiser *)

Module ParamGroup.
Record t : Type := mk {
  params : list string;
  lr : Q
}.
End ParamGroup.

Module Optimizer.
Record t {F : Framework} : Type := mk {
  param_groups : list ParamGroup.t;
  state : OptState
}.
Arguments t {F}.
Arguments mk {F}.

(** What [state_dict()] holds: per group the number of parameters and the
    learning rate, and the state. *)
Definition state_dict {F : Framework} (o : t) : list (nat * Q) * OptState :=
  (map (fun g => (length (ParamGroup.params g), ParamGroup.lr g)) (param_groups o),
   state o).

(** [load_state_dict]: refused with [ValueError] when the groups differ in
    number or in size; else the saved learning rates and state replace the
    current ones. *)
Definition load_state_dict {F : Framework} (o : t) (sd : list (nat * Q) * OptState)
  : result t :=
  if decide (map (fun g => length (ParamGroup.params g)) (param_groups o) = map fst (fst sd))
  then Ok {| param_groups :=
               zip_with (fun g s => {| ParamGroup.params := ParamGroup.params g;
                                       ParamGroup.lr := snd s |})
                        (param_groups o) (fst sd);
             state := snd sd |}
  else Raise ValueError.

Definition lrs {F : Framework} (o : t) : list Q :=
  map ParamGroup.lr (param_groups o).

Fixpoint set_lrs (gs : list ParamGroup.t) (ls : list Q) : list ParamGroup.t :=
  match gs, ls with
  | g :: gs', l :: ls' =>
      {| ParamGroup.params := ParamGroup.params g; ParamGroup.lr := l |} :: set_lrs gs' ls'
  | _, _ => gs
  end.
End Optimizer.

(** *** Records of the script *)

(** [argparse.Namespace(top1=..., top5=...)]. *)
Record Namespace : Type := mkNamespace {
  top1 : Q;
  top5 : Q
}.

Module Args.
Record t {F : Framework} : Type := mk {
  argv : string;
  pretrained : gmap string Tensor;   (* the dict stored in the file [pretrained] *)
  dataset : string;
  weights : string;
  train_percent : Z;
  epochs : Z;
  batch_size : Z;
  lr_backbone : Q;
  lr_classifier : Q;
  weight_decay : Q;
  print_freq : Z;
  encoder : string;
  rank : Z;
  world_size : Z
}.
Arguments t {F}.
Arguments mk {F}.
End Args.

Module Ckpt.
Record t {F : Framework} : Type := mk {
  epoch : Z;
  best_val_acc : Namespace;
  best_test_acc : Namespace;
  model : list (string * Tensor);
  optimizer : list (nat * Q) * OptState;
  scheduler : Scheduler
}.
Arguments t {F}.
Arguments mk {F}.
End Ckpt.

Module StepStats.
Record t : Type := mk {
  epoch : Z;
  step : Z;
  lr_backbone : Q;
  lr_classifier : Q;
  loss : Q;
  time : Z
}.
End StepStats.

Module EpochStats.
Record t : Type := mk {
  epoch : Z;
  val_acc1 : Q;
  val_acc5 : Q;
  best_val_acc1 : Q;
  best_val_acc5 : Q;
  test_acc1 : Q;
  test_acc5 : Q;
  best_test_acc1 : Q;
  best_test_acc5 : Q
}.
End EpochStats.

(** A line of output: the command line, or one [json.dumps(stats)]. *)
Inductive line : Type :=
| ArgvLine (s : string)
| StepLine (s : StepStats.t)
| EpochLine (s : EpochStats.t).

(** What a worker can change outside its own memory. *)
Record World {F : Framework} : Type := mkWorld {
  stdout : list line;
  stats_file : list line;                  (* [checkpoint_dir / 'stats.txt'] *)
  checkpoint_pth : option Ckpt.t           (* [checkpoint_dir / 'checkpoint.pth'] *)
}.
Arguments World {F}.
Arguments mkWorld {F}.

(** The local variables of [main_worker] that the epoch loop carries. *)
Module Locals.
Record t {F : Framework} : Type := mk {
  model : list (string * Tensor);
  requires_grad : string -> bool;
  optimizer : Optimizer.t;
  scheduler : Scheduler;
  best_val_acc : Namespace;
  best_test_acc : Namespace
}.
Arguments t {F}.
Arguments mk {F}.
End Locals.

(** ** main_worker *)

Section Worker.
Context {F : Framework}.

Definition fc_keys : list string := ["fc.weight"; "fc.bias"].

(** [print(x); print(x, file=stats_file)]. *)
Definition print_both (l : line) : M World unit :=
  modify (fun w => {| stdout := stdout w ++ [l];
                      stats_file := stats_file w ++ [l];
                      checkpoint_pth := checkpoint_pth w |}).

(** [torch.save(state, checkpoint_dir / 'checkpoint.pth')]. *)
Definition torch_save (state : Ckpt.t) : M World unit :=
  modify (fun w => {| stdout := stdout w;
                      stats_file := stats_file w;
                      checkpoint_pth := Some state |}).

(** The freshly constructed ResNet. *)
Definition construct_model (args : Args.t) : list (string * Tensor) :=
  let num_classes := if decide (Args.dataset args = "cifar10") then 10 else 100 in
  if decide (Args.encoder args = "resnet18") then resnet "resnet18" num_classes
  else if decide (Args.encoder args = "resnet34") then resnet "resnet34" num_classes
  else resnet "resnet50" num_classes.

(** Loading of the pretrained weights and the new classifier head. *)
Definition build_model (args : Args.t) : result (list (string * Tensor)) :=
  let model := construct_model args in
  let state_dict := Args.pretrained args in
  let '(model, (missing_keys, unexpected_keys)) :=
    load_state_dict model (map fst (map_to_list state_dict)) (fun k => state_dict !! k) in
  if decide (missing_keys = fc_keys /\ unexpected_keys = []) then
    let model := sd_alter "fc.weight" (normal_ 0 (1 # 100)) model in
    let model := sd_alter "fc.bias" zero_ model in
    Ok model
  else Raise (AssertionError None).

Definition requires_grad_of (args : Args.t) : string -> bool :=
  fun k => if decide (Args.weights args = "freeze")
           then bool_decide (k ∈ fc_keys) else true.

Definition named_parameters (model : list (string * Tensor)) : list string :=
  List.filter is_parameter (map fst model).

Definition make_optimizer (args : Args.t) (model : list (string * Tensor)) : Optimizer.t :=
  let classifier_parameters :=
    List.filter (fun k => bool_decide (k ∈ fc_keys)) (named_parameters model) in
  let model_parameters :=
    List.filter (fun k => negb (bool_decide (k ∈ fc_keys))) (named_parameters model) in
  let param_groups :=
    {| ParamGroup.params := classifier_parameters;
       ParamGroup.lr := Args.lr_classifier args |}
    :: (if decide (Args.weights args = "finetune")
        then [{| ParamGroup.params := model_parameters;
                 ParamGroup.lr := Args.lr_backbone args |}]
        else []) in
  {| Optimizer.param_groups := param_groups;
     Optimizer.state := SGD_init (9 # 10) (Args.weight_decay args) |}.

(** The locals before the checkpoint is looked at. *)
Definition setup (args : Args.t) : result Locals.t :=
  (model <~ build_model args ;;
   let optimizer := make_optimizer args model in
   Ok {| Locals.model := model;
         Locals.requires_grad := requires_grad_of args;
         Locals.optimizer := optimizer;
         Locals.scheduler := CosineAnnealingLR (Optimizer.lrs optimizer) (Args.epochs args);
         Locals.best_val_acc := {| top1 := 0; top5 := 0 |};
         Locals.best_test_acc := {| top1 := 0; top5 := 0 |} |})%py.

(** Automatic resume: the start epoch and the locals the loop begins with. *)
Definition resume (st : Locals.t) : M World (Z * Locals.t) :=
  (w <- get ;;
   match checkpoint_pth w with
   | Some ckpt =>
       model <- lift (load_state_dict_strict (Locals.model st) (Ckpt.model ckpt)) ;;
       optimizer <- lift (Optimizer.load_state_dict (Locals.optimizer st)
                                                   (Ckpt.optimizer ckpt)) ;;
       ret (Ckpt.epoch ckpt,
            {| Locals.model := model;
               Locals.requires_grad := Locals.requires_grad st;
               Locals.optimizer := optimizer;
               Locals.scheduler := Ckpt.scheduler ckpt;
               Locals.best_val_acc := Ckpt.best_val_acc ckpt;
               Locals.best_test_acc := Ckpt.best_test_acc ckpt |})
   | None =>
       ret (0,
            {| Locals.model := Locals.model st;
               Locals.requires_grad := Locals.requires_grad st;
               Locals.optimizer := Locals.optimizer st;
               Locals.scheduler := Locals.scheduler st;
               Locals.best_val_acc := {| top1 := 0; top5 := 0 |};
               Locals.best_test_acc := {| top1 := 0; top5 := 0 |} |})
   end)%py.

(** A tensor is updated by [optimizer.step()] when it sits in a parameter
    group and has a gradient. *)
Definition trainable (st : Locals.t) (k : string) : bool :=
  existsb (fun g => bool_decide (k ∈ ParamGroup.params g))
          (Optimizer.param_groups (Locals.optimizer st))
  && Locals.requires_grad st k.

(** [output = model(images); loss.backward(); optimizer.step()] as it acts
    on the locals: trained parameters move, buffers move in training mode,
    everything else stays. *)
Definition train_step (training : bool) (st : Locals.t)
    (images : Images) (target : list Z) : Locals.t :=
  let opt := Locals.optimizer st in
  let lrs := Optimizer.lrs opt in
  {| Locals.model :=
       map (fun kv =>
              (fst kv,
               if trainable st (fst kv)
               then sgd_parameter lrs (Optimizer.state opt) (Locals.model st)
                                  images target (fst kv) (snd kv)
               else if training && negb (is_parameter (fst kv))
               then forward_buffer (Locals.model st) images (fst kv) (snd kv)
               else snd kv))
           (Locals.model st);
     Locals.requires_grad := Locals.requires_grad st;
     Locals.optimizer :=
       {| Optimizer.param_groups := Optimizer.param_groups opt;
          Optimizer.state := sgd_state lrs (Optimizer.state opt) (Locals.model st)
                                       images target |};
     Locals.scheduler := Locals.scheduler st;
     Locals.best_val_acc := Locals.best_val_acc st;
     Locals.best_test_acc := Locals.best_test_acc st |}.

(** One iteration of the training loop. *)
Definition train_batch (args : Args.t) (rank epoch : Z) (training : bool)
    (st : Locals.t) (sb : Z * (Images * list Z)) : M World Locals.t :=
  let step := fst sb in
  let images := fst (snd sb) in
  let target := snd (snd sb) in
  let output := forward training (Locals.model st) images in
  let loss := criterion output target in
  let st := train_step training st images target in
  if Args.print_freq args =? 0 then raise ZeroDivisionError
  else if step mod Args.print_freq args =? 0 then
    let loss := dist_reduce (loss / inject_Z (Args.world_size args))%Q in
    if rank =? 0 then
      match Optimizer.param_groups (Locals.optimizer st) with
      | [] => raise IndexError
      | g0 :: pg' =>
          let lr_classifier := ParamGroup.lr g0 in
          let lr_backbone := match pg' with
                             | [g1] => ParamGroup.lr g1
                             | _ => 0%Q
                             end in
          (print_both (StepLine {| StepStats.epoch := epoch;
                                   StepStats.step := step;
                                   StepStats.lr_backbone := lr_backbone;
                                   StepStats.lr_classifier := lr_classifier;
                                   StepStats.loss := loss;
                                   StepStats.time := elapsed step |}) ;;;
           ret st)%py
      end
    else ret st
  else ret st.

(** [meter.update(v, n)] on a meter that is a local of the caller. *)
Definition meter_update (v : Q) (n : Z) (m : AverageMeter.t) : result AverageMeter.t :=
  match AverageMeter.update v n m with
  | (Ok _, m') => Ok m'
  | (Raise e, _) => Raise e
  end.

(** One batch of an evaluation loop: [acc1, acc5 = accuracy(...)] and the
    two meter updates with [acc[0].item()]. *)
Definition eval_batch (model : list (string * Tensor))
    (meters : AverageMeter.t * AverageMeter.t) (b : Images * list Z)
  : result (AverageMeter.t * AverageMeter.t) :=
  let images := fst b in
  let target := snd b in
  let output := forward false model images in
  (res <~ accuracy output target [1; 5] ;;
   match res with
   | [acc1; acc5] =>
       match acc1, acc5 with
       | a1 :: _, a5 :: _ =>
           m1 <~ meter_update a1 (size0 images) (fst meters) ;;
           m5 <~ meter_update a5 (size0 images) (snd meters) ;;
           Ok (m1, m5)
       | _, _ => Raise IndexError
       end
   | _ => Raise ValueError
   end)%py.

Definition evaluate (model : list (string * Tensor)) (name1 name5 : string)
    (loader : list (Images * list Z)) : result (AverageMeter.t * AverageMeter.t) :=
  fold_result (eval_batch model) loader
              (AverageMeter.__init__ name1 ":f", AverageMeter.__init__ name5 ":f").

(** The best-accuracy bookkeeping at the end of an epoch. *)
Definition update_best (best : Namespace * Namespace)
    (val_top1 val_top5 test_top1 test_top5 : Q) : Namespace * Namespace :=
  let best_val_acc := fst best in
  let best_test_acc := snd best in
  let best_val_acc :=
    {| top1 := top1 best_val_acc; top5 := py_max (top5 best_val_acc) val_top5 |} in
  if Qlt_le_dec (top1 best_val_acc) val_top1 then
    ({| top1 := val_top1; top5 := top5 best_val_acc |},
     {| top1 := py_max (top1 best_test_acc) test_top1;
        top5 := py_max (top5 best_test_acc) test_top5 |})
  else (best_val_acc, best_test_acc).

(** The dict dumped at the end of an epoch. *)
Definition epoch_stats (epoch : Z) (val_top1 val_top5 test_top1 test_top5 : Q)
    (best_val_acc best_test_acc : Namespace) : EpochStats.t :=
  {| EpochStats.epoch := epoch;
     EpochStats.val_acc1 := val_top1;
     EpochStats.val_acc5 := val_top5;
     EpochStats.best_val_acc1 := top1 best_val_acc;
     EpochStats.best_val_acc5 := top5 best_test_acc;
     EpochStats.test_acc1 := test_top1;
     EpochStats.test_acc5 := test_top5;
     EpochStats.best_test_acc1 := top1 best_test_acc;
     EpochStats.best_test_acc5 := top5 best_test_acc |}.

(** The evaluation block of rank 0. *)
Definition evaluate_and_report (epoch : Z)
    (val_loader test_loader : list (Images * list Z)) (st : Locals.t)
  : M World Locals.t :=
  (val <- lift (evaluate (Locals.model st) "ValAcc@1" "ValAcc@5" val_loader) ;;
   test <- lift (evaluate (Locals.model st) "TestAcc@1" "TestAcc@5" test_loader) ;;
   let val_top1 := AverageMeter.avg (fst val) in
   let val_top5 := AverageMeter.avg (snd val) in
   let test_top1 := AverageMeter.avg (fst test) in
   let test_top5 := AverageMeter.avg (snd test) in
   let best := update_best (Locals.best_val_acc st, Locals.best_test_acc st)
                           val_top1 val_top5 test_top1 test_top5 in
   print_both (EpochLine (epoch_stats epoch val_top1 val_top5 test_top1 test_top5
                                      (fst best) (snd best))) ;;;
   ret {| Locals.model := Locals.model st;
          Locals.requires_grad := Locals.requires_grad st;
          Locals.optimizer := Locals.optimizer st;
          Locals.scheduler := Locals.scheduler st;
          Locals.best_val_acc := fst best;
          Locals.best_test_acc := snd best |})%py.

(** The sanity check of the frozen run, one assertion per key of the
    pretrained dict. *)
Definition sanity_check (reference_state_dict : gmap string Tensor)
    (model_state_dict : list (string * Tensor)) : result unit :=
  fold_result
    (fun _ kv =>
       match sd_get model_state_dict (fst kv) with
       | None => Raise (KeyError (fst kv))
       | Some t => if decide (t = snd kv) then Ok tt
                   else Raise (AssertionError (Some (fst kv)))
       end)
    (map_to_list reference_state_dict) tt.

Definition checkpoint_of (epoch : Z) (st : Locals.t) : Ckpt.t :=
  {| Ckpt.epoch := epoch + 1;
     Ckpt.best_val_acc := Locals.best_val_acc st;
     Ckpt.best_test_acc := Locals.best_test_acc st;
     Ckpt.model := Locals.model st;
     Ckpt.optimizer := Optimizer.state_dict (Locals.optimizer st);
     Ckpt.scheduler := Locals.scheduler st |}.

(** [scheduler.step()]. *)
Definition step_scheduler (st : Locals.t) : Locals.t :=
  let opt := Locals.optimizer st in
  let r := scheduler_step (Locals.scheduler st) (Optimizer.lrs opt) in
  {| Locals.model := Locals.model st;
     Locals.requires_grad := Locals.requires_grad st;
     Locals.optimizer :=
       {| Optimizer.param_groups := Optimizer.set_lrs (Optimizer.param_groups opt) (snd r);
          Optimizer.state := Optimizer.state opt |};
     Locals.scheduler := fst r;
     Locals.best_val_acc := Locals.best_val_acc st;
     Locals.best_test_acc := Locals.best_test_acc st |}.

(** [model.train()] or [model.eval()] at the top of an epoch. *)
Definition set_mode (args : Args.t) : M World bool :=
  if decide (Args.weights args = "finetune") then ret true
  else if decide (Args.weights args = "freeze") then ret false
  else raise (AssertionError None).

(** The end of an epoch: sanity check, scheduler step, checkpoint. *)
Definition finish_epoch (args : Args.t) (rank epoch : Z) (st : Locals.t)
  : M World Locals.t :=
  ((if decide (Args.weights args = "freeze")
    then lift (sanity_check (Args.pretrained args) (Locals.model st))
    else ret tt) ;;;
   let st := step_scheduler st in
   (if rank =? 0 then torch_save (checkpoint_of epoch st) else ret tt) ;;;
   ret st)%py.

(** The body of [for epoch in range(start_epoch, args.epochs)]. *)
Definition epoch_body (args : Args.t) (rank : Z)
    (train_loader : Z -> list (Images * list Z))
    (val_loader test_loader : list (Images * list Z))
    (st : Locals.t) (epoch : Z) : M World Locals.t :=
  (training <- set_mode args ;;
   let batches := train_loader epoch in
   st <- fold_M (train_batch args rank epoch training)
                (enumerate batches (epoch * len batches)) st ;;
   st <- (if rank =? 0 then evaluate_and_report epoch val_loader test_loader st
          else ret st) ;;
   finish_epoch args rank epoch st)%py.

Definition run_epochs (args : Args.t) (rank : Z)
    (train_loader : Z -> list (Images * list Z))
    (val_loader test_loader : list (Images * list Z))
    (start_epoch : Z) (st : Locals.t) : M World Locals.t :=
  fold_M (epoch_body args rank train_loader val_loader test_loader)
         (py_range2 start_epoch (Args.epochs args)) st.

(** [main_worker(gpu, args)].  It returns the locals at the end of the loop,
    which the script drops. *)
Definition main_worker (gpu : Z) (args : Args.t) : M World Locals.t :=
  let rank := Args.rank args + gpu in
  ((if rank =? 0 then print_both (ArgvLine (Args.argv args)) else ret tt) ;;;
   st <- lift (setup args) ;;
   r <- resume st ;;
   let start_epoch := fst r in
   let st := snd r in
   let idx := split_train_val shuffle (Args.train_percent args)
                              (train_dataset_len (Args.dataset args)) in
   let train_idx := fst idx in
   let val_idx := snd idx in
   (if Args.world_size args =? 0 then raise ZeroDivisionError else ret tt) ;;;
   let batch_size := Args.batch_size args / Args.world_size args in
   let train_loader := train_batches (Args.dataset args) train_idx batch_size rank in
   let val_loader := val_batches (Args.dataset args) val_idx batch_size in
   let test_loader := test_batches (Args.dataset args) batch_size in
   run_epochs args rank train_loader val_loader test_loader start_epoch st)%py.

End Worker.

(** ** Properties of the locals and of the pretrained dict *)

Section Invariants.
Context {F : Framework}.

(** The pretrained dict covers the network except for the classifier head:
    the keys of the network it lacks are exactly [fc.weight] and [fc.bias],
    and every key it has names a tensor of the network. *)
Definition matches_except_head (args : Args.t) : Prop :=
  List.filter (fun k => match Args.pretrained args !! k with
                        | None => true
                        | Some _ => false
                        end)
              (map fst (construct_model args)) = fc_keys /\
  forall k, is_Some (Args.pretrained args !! k) -> In k (map fst (construct_model args)).

(** [st'] is laid out like [st]: the same named tensors in the same order,
    the same parameters in the same groups, the same [requires_grad] flags. *)
Definition same_layout (st st' : Locals.t) : Prop :=
  map fst (Locals.model st') = map fst (Locals.model st) /\
  map ParamGroup.params (Optimizer.param_groups (Locals.optimizer st')) =
    map ParamGroup.params (Optimizer.param_groups (Locals.optimizer st)) /\
  Locals.requires_grad st' = Locals.requires_grad st.

(** Outside the classifier head, [st'] holds the tensors of [st]. *)
Definition same_backbone (st st' : Locals.t) : Prop :=
  forall k, ~ In k fc_keys ->
            sd_get (Locals.model st') k = sd_get (Locals.model st) k.

(** Gradients are enabled for the classifier head at most. *)
Definition frozen (st : Locals.t) : Prop :=
  forall k, Locals.requires_grad st k = true -> In k fc_keys.

(** Every tensor of the pretrained dict is outside the head and equals the
    tensor of the same name in the model. *)
Definition agrees_with_pretrained (args : Args.t) (model : list (string * Tensor)) : Prop :=
  forall k t, Args.pretrained args !! k = Some t ->
              ~ In k fc_keys /\ sd_get model k = Some t.

(** The exception is not a failed assertion of the sanity check. *)
Definition not_sanity_failure (e : exn) : Prop :=
  forall k, e <> AssertionError (Some k).

(** A checkpoint that the locals [st] can load: the same tensor names and
    the same sizes of parameter groups. *)
Definition loadable (st : Locals.t) (ckpt : Ckpt.t) : Prop :=
  (forall k, In k (map fst (Locals.model st)) <-> In k (map fst (Ckpt.model ckpt))) /\
  map (fun g => length (ParamGroup.params g))
      (Optimizer.param_groups (Locals.optimizer st)) = map fst (fst (Ckpt.optimizer ckpt)).

(** The locals hold what the checkpoint stores. *)
Definition restored_from (ckpt : Ckpt.t) (st : Locals.t) : Prop :=
  Locals.best_val_acc st = Ckpt.best_val_acc ckpt /\
  Locals.best_test_acc st = Ckpt.best_test_acc ckpt /\
  (forall k, sd_get (Locals.model st) k = sd_get (Ckpt.model ckpt) k) /\
  Optimizer.state_dict (Locals.optimizer st) = Ckpt.optimizer ckpt /\
  Locals.scheduler st = Ckpt.scheduler ckpt.

(** The start epoch and the locals with which the epoch loop begins, as
    [main_worker] computes them from the arguments and the checkpoint file. *)
Definition start_of_loop (args : Args.t) (w : World) : result (Z * Locals.t) :=
  match setup args with
  | Ok st => fst (resume st w)
  | Raise e => Raise e
  end.

End Invariants.

(** The four averages an epoch measures. *)
Module EpochAcc.
Record t : Type := mk {
  val_top1 : Q;
  val_top5 : Q;
  test_top1 : Q;
  test_top5 : Q
}.
End EpochAcc.

(** The best accuracies after a sequence of epochs. *)
Definition best_after (best : Namespace * Namespace) (accs : list EpochAcc.t)
  : Namespace * Namespace :=
  fold_left (fun b a => update_best b (EpochAcc.val_top1 a) (EpochAcc.val_top5 a)
                                    (EpochAcc.test_top1 a) (EpochAcc.test_top5 a))
            accs best.

(** ** A small instance for the examples

    Integer tensors, a four-entry network whose forward pass returns the
    scores stored in the batch, and one batch per loader. *)

Definition toy_val_batch : list (list Q) * list Z :=
  ([[9#10; 1#10; 2#10; 3#10; 4#10; 0]; [9#10; 1#10; 2#10; 3#10; 4#10; 0]]%Q, [0; 1]).

Definition toy_test_batch : list (list Q) * list Z :=
  ([[9#10; 1#10; 2#10; 3#10; 4#10; 0]; [9#10; 1#10; 2#10; 3#10; 4#10; 0]]%Q, [0; 5]).

Definition toy_framework : Framework := {|
  Tensor := Z;
  Images := list (list Q);
  OptState := Z;
  Scheduler := Z;
  resnet := fun _ _ =>
    [("conv1.weight", 1); ("bn1.running_mean", 2); ("fc.weight", 3); ("fc.bias", 4)];
  is_parameter := fun k => negb (bool_decide (k = "bn1.running_mean"));
  normal_ := fun _ _ _ => 7;
  zero_ := fun _ => 0;
  size0 := fun images => len images;
  forward := fun _ _ images => images;
  criterion := fun _ _ => 1%Q;
  dist_reduce := fun x => x;
  SGD_init := fun _ _ => 0;
  sgd_parameter := fun _ _ _ _ _ _ t => t + 1;
  sgd_state := fun _ s _ _ _ => s + 1;
  forward_buffer := fun _ _ _ t => t + 1;
  CosineAnnealingLR := fun _ _ => 0;
  scheduler_step := fun s lrs => (s + 1, lrs);
  shuffle := fun _ l => rev l;
  train_dataset_len := fun _ => 20;
  train_batches := fun _ _ _ _ _ => [toy_val_batch];
  val_batches := fun _ _ _ => [toy_val_batch];
  test_batches := fun _ _ => [toy_test_batch];
  elapsed := fun _ => 0
|}.

Definition toy_pretrained : gmap string (@Tensor toy_framework) :=
  {[ "conv1.weight" := 10; "bn1.running_mean" := 20 ]}.

Definition toy_args (weights : string) (epochs : Z) : @Args.t toy_framework :=
  @Args.mk toy_framework
    "evaluate_cifar.py model.pth"   (* argv *)
    toy_pretrained                  (* pretrained *)
    "cifar10"                       (* dataset *)
    weights
    100                             (* train_percent *)
    epochs
    256                             (* batch_size *)
    0                               (* lr_backbone *)
    (3 # 10)                        (* lr_classifier *)
    (1 # 1000000)                   (* weight_decay *)
    100                             (* print_freq *)
    "resnet50"                      (* encoder *)
    0                               (* rank *)
    1.                              (* world_size *)

Definition empty_world : @World toy_framework :=
  @mkWorld toy_framework [] [] None.

(** A checkpoint left in the directory by a frozen run on another pretrained
    file: same network, same optimiser layout, another backbone. *)
Definition stale_checkpoint : @Ckpt.t toy_framework :=
  @Ckpt.mk toy_framework
    0 {| top1 := 0; top5 := 0 |} {| top1 := 0; top5 := 0 |}
    [("conv1.weight", 99); ("bn1.running_mean", 20); ("fc.weight", 5); ("fc.bias", 6)]
    ([(2%nat, 3 # 10)], 0)
    0.

Definition stale_world : @World toy_framework :=
  @mkWorld toy_framework [] [] (Some stale_checkpoint).

(** The locals [setup] builds for a frozen run of two epochs. *)
Definition toy_locals : @Locals.t toy_framework :=
  @Locals.mk toy_framework
    [("conv1.weight", 10); ("bn1.running_mean", 20); ("fc.weight", 7); ("fc.bias", 0)]
    (requires_grad_of (toy_args "freeze" 2))
    (make_optimizer (toy_args "freeze" 2)
       [("conv1.weight", 10); ("bn1.running_mean", 20); ("fc.weight", 7); ("fc.bias", 0)])
    0
    {| top1 := 0; top5 := 0 |}
    {| top1 := 0; top5 := 0 |}.

(** ** Further notions used in the statements about [accuracy] *)

(** The arguments for which [accuracy] returns: a non-empty [topk] whose
    largest entry is a valid number of classes for every row, and a target
    with one label per row or a single label. *)
Definition accuracy_defined (output : list (list Q)) (target topk : list Z) : bool :=
  match py_max_seq topk with
  | Raise _ => false
  | Ok maxk =>
      forallb (fun row => (0 <=? maxk) && (maxk <=? len row)) output
      && ((length target =? length output)%nat || (length target =? 1)%nat)
  end.

(** The label [t] is the first maximum of the row: no class scores higher
    and no class of lower index scores the same. *)
Definition is_first_max (row : list Q) (t : Z) : bool :=
  (0 <=? t) && (t <? len row)
  && forallb (fun c => negb (beats row c (Z.to_nat t))) (seq 0 (length row)).

(** ** Further notions used in the statements about [main_worker] *)

(** A computation whose store always ends related to the store it started
    from, whether it returns or raises. *)
Definition keeps {S A} (R : S -> S -> Prop) (c : M S A) : Prop :=
  forall s, R s (snd (c s)).

Section WorkerNotions.
Context {F : Framework}.

(** [w'] is [w] with the same lines appended to the standard output and to
    [stats.txt]. *)
Definition same_lines_appended (w w' : World) : Prop :=
  exists lines,
    stdout w' = stdout w ++ lines /\ stats_file w' = stats_file w ++ lines.

(** The world after rank 0 has printed the command line. *)
Definition after_argv (args : Args.t) (rank : Z) (w : World) : World :=
  if rank =? 0
  then {| stdout := stdout w ++ [ArgvLine (Args.argv args)];
          stats_file := stats_file w ++ [ArgvLine (Args.argv args)];
          checkpoint_pth := checkpoint_pth w |}
  else w.

(** The three loaders [main_worker] builds. *)
Definition train_loader_of (args : Args.t) (rank : Z) : Z -> list (Images * list Z) :=
  train_batches (Args.dataset args)
    (fst (split_train_val shuffle (Args.train_percent args)
                          (train_dataset_len (Args.dataset args))))
    (Args.batch_size args / Args.world_size args) rank.

Definition val_loader_of (args : Args.t) : list (Images * list Z) :=
  val_batches (Args.dataset args)
    (snd (split_train_val shuffle (Args.train_percent args)
                          (train_dataset_len (Args.dataset args))))
    (Args.batch_size args / Args.world_size args).

Definition test_loader_of (args : Args.t) : list (Images * list Z) :=
  test_batches (Args.dataset args) (Args.batch_size args / Args.world_size args).

(** The epoch numbers of the epoch records among some lines, in order. *)
Definition epoch_numbers (lines : list line) : list Z :=
  flat_map (fun l => match l with
                     | EpochLine s => [EpochStats.epoch s]
                     | _ => []
                     end) lines.




End WorkerNotions.

(** * Theorems *)

(** ** Reasoning about computations with a store *)

Section PostRules.
Context {S : Type}.

Lemma post_ret {A} (a : A) (s : S) Qok Qex :
  Qok a s -> post (ret a) s Qok Qex.
Proof. intros H. exact H. Qed.

Lemma post_raise {A} (e : exn) (s : S) (Qok : A -> S -> Prop) Qex :
  Qex e s -> post (raise e) s Qok Qex.
Proof. intros H. exact H. Qed.

Lemma post_lift {A} (r : result A) (s : S) Qok Qex :
  match r with Ok a => Qok a s | Raise e => Qex e s end ->
  post (lift r) s Qok Qex.
Proof. intros H. unfold post, lift. destruct r; exact H. Qed.

Lemma post_get (s : S) Qok Qex : Qok s s -> post get s Qok Qex.
Proof. intros H. exact H. Qed.

Lemma post_modify (f : S -> S) (s : S) Qok Qex :
  Qok tt (f s) -> post (modify f) s Qok Qex.
Proof. intros H. exact H. Qed.

Lemma post_bind {A B} (c : M S A) (f : A -> M S B) (s : S) Qok Qex :
  post c s (fun a s' => post (f a) s' Qok Qex) Qex ->
  post (bind c f) s Qok Qex.
Proof.
  unfold post, bind. destruct (c s) as [[a|e] s']; intros H; exact H.
Qed.

Lemma post_weaken {A} (c : M S A) (s : S) (Q1 Q2 : A -> S -> Prop) (E1 E2 : exn -> S -> Prop) :
  post c s Q1 E1 ->
  (forall a s', Q1 a s' -> Q2 a s') ->
  (forall e s', E1 e s' -> E2 e s') ->
  post c s Q2 E2.
Proof.
  unfold post. destruct (c s) as [[a|e] s']; intros H H1 H2; auto.
Qed.

Lemma post_fold_M {A B} (f : B -> A -> M S B) (xs : list A)
    (I : B -> S -> Prop) (Qex : exn -> S -> Prop) :
  (forall b x s, In x xs -> I b s -> post (f b x) s I Qex) ->
  forall b s, I b s -> post (fold_M f xs b) s I Qex.
Proof.
  induction xs as [|x xs IH]; intros Hf b s Hb; simpl.
  - exact Hb.
  - apply post_bind.
    eapply post_weaken; [apply Hf; [left; reflexivity|exact Hb]| |auto].
    intros b' s' Hb'. apply IH; [|exact Hb'].
    intros b0 x0 s0 Hx. apply Hf. right. exact Hx.
Qed.

Lemma post_run {A} (c : M S A) (s : S) Qok Qex r s' :
  post c s Qok Qex -> c s = (r, s') ->
  match r with Ok a => Qok a s' | Raise e => Qex e s' end.
Proof. unfold post. intros H E. rewrite E in H. exact H. Qed.

End PostRules.

Section RaisesRules.
Variable P : exn -> Prop.

Lemma raises_rbind {A B} (r : result A) (f : A -> result B) :
  raises P r -> (forall a, r = Ok a -> raises P (f a)) -> raises P (rbind r f).
Proof. destruct r as [a|e]; simpl; intros H Hf; [apply Hf; reflexivity|exact H]. Qed.

Lemma raises_map_result {A B} (f : A -> result B) (l : list A) :
  (forall x, raises P (f x)) -> raises P (map_result f l).
Proof.
  intros Hf. induction l as [|x l IH]; simpl; [exact I|].
  specialize (Hf x). destruct (f x) as [y|e]; [|exact Hf].
  destruct (map_result f l) as [ys|e]; [exact I|exact IH].
Qed.

Lemma raises_fold_result {A B} (f : B -> A -> result B) (xs : list A) (b : B) :
  (forall b x, raises P (f b x)) -> raises P (fold_result f xs b).
Proof.
  intros Hf. revert b. induction xs as [|x xs IH]; intros b; simpl; [exact I|].
  apply raises_rbind; [apply Hf|]. intros b' _. apply IH.
Qed.

Lemma raises_elim {A} (r : result A) (e : exn) : raises P r -> r = Raise e -> P e.
Proof. intros H ->. exact H. Qed.

End RaisesRules.



(** ** AverageMeter *)

Section MeterFacts.
Import AverageMeter.

Lemma update_ok (self : t) (v : Q) (n : Z) :
  count self + n <> 0 ->
  update v n self =
    (Ok tt,
     {| name := name self; fmt := fmt self; val := v;
        avg := ((sum self + v * inject_Z n) / inject_Z (count self + n))%Q;
        sum := (sum self + v * inject_Z n)%Q;
        count := count self + n |}).
Proof.
  intros Hc. unfold update.
  destruct (Z.eqb_spec (count self + n) 0) as [E|_]; [contradiction|reflexivity].
Qed.

Lemma update_zero_count (self : t) (v : Q) (n : Z) :
  count self + n = 0 ->
  fst (update v n self) = Raise ZeroDivisionError /\
  avg (snd (update v n self)) = avg self.
Proof.
  intros Hc. unfold update. rewrite Hc. simpl. split; reflexivity.
Qed.

(** The invariant carried along a run of updates that starts from any meter
    with a non-negative count. *)
Lemma updates_from (us : list (Q * Z)) :
  Forall (fun u => 1 <= snd u) us ->
  forall self, 0 <= count self ->
  exists m,
    updates us self = (Ok tt, m) /\
    (sum m == sum self + weighted_sum us)%Q /\
    count m = count self + total_count us /\
    (us <> [] ->
     (avg m == sum m / inject_Z (count m))%Q /\
     val m = fst (List.last us (0%Q, 0))).
Proof.
  induction 1 as [|[v n] us Hn Hus IH]; intros self Hc.
  - exists self. split; [reflexivity|]. split; [simpl; ring|].
    split; [simpl; lia|]. intros Hne. contradiction.
  - simpl in Hn. unfold updates. simpl. unfold bind.
    rewrite update_ok by lia.
    set (m1 := {| name := name self; fmt := fmt self; val := v;
                  avg := _; sum := _; count := _ |}).
    destruct (IH m1) as (m & Hrun & Hsum & Hcount & Hlast).
    { simpl. lia. }
    fold (updates us). exists m. rewrite Hrun. split; [reflexivity|].
    split; [rewrite Hsum; simpl; ring|].
    split; [rewrite Hcount; simpl; lia|].
    intros _. destruct us as [|u us'].
    + simpl in Hrun. injection Hrun as <-. simpl. split; reflexivity.
    + destruct Hlast as [Havg Hval]; [discriminate|]. split; assumption.
Qed.

(** C2. After [reset()], the four numeric fields are 0; after [reset()] and a
    non-empty sequence of [update(v_i, n_i)] calls with every [n_i >= 1], no
    call raises and the meter holds [sum = sum_i v_i * n_i],
    [count = sum_i n_i], [avg = sum / count] and [val = v_m]. *)
Theorem AverageMeter_reset_then_updates (self : t) (us : list (Q * Z))
    (Hne : us <> []) (Hn : Forall (fun u => 1 <= snd u) us) :
  (val (reset self) = 0%Q /\ avg (reset self) = 0%Q /\
   sum (reset self) = 0%Q /\ count (reset self) = 0) /\
  exists m,
    updates us (reset self) = (Ok tt, m) /\
    (sum m == weighted_sum us)%Q /\
    count m = total_count us /\
    (avg m == sum m / inject_Z (count m))%Q /\
    val m = fst (List.last us (0%Q, 0)).
Proof.
  split; [repeat split|].
  destruct (updates_from us Hn (reset self)) as (m & Hrun & Hsum & Hcount & Hlast).
  { simpl. lia. }
  destruct (Hlast Hne) as [Havg Hval].
  exists m. repeat split; try assumption.
  - rewrite Hsum. simpl. ring.
Qed.

Lemma AverageMeter_reset_then_updates_witness :
  let us : list (Q * Z) := [(50 # 1, 4); (100 # 1, 2)] in
  exists m,
    updates us (reset (__init__ "ValAcc@1" ":f")) = (Ok tt, m) /\
    (sum m == 400 # 1)%Q /\ count m = 6 /\ (avg m == 200 # 3)%Q /\
    val m = (100 # 1)%Q.
Proof.
  intros us.
  destruct (AverageMeter_reset_then_updates (__init__ "ValAcc@1" ":f") us)
    as (_ & m & Hrun & Hsum & Hcount & Havg & Hval).
  - discriminate.
  - repeat constructor; simpl; lia.
  - exists m. split; [exact Hrun|].
    split; [rewrite Hsum; reflexivity|].
    split; [rewrite Hcount; reflexivity|].
    split; [rewrite Havg, Hsum, Hcount; reflexivity|exact Hval].
Defined.

End MeterFacts.

(** ** accuracy *)

Example accuracy_example :
  accuracy example_scores example_labels [1; 2]
  = Ok [[(1 * (100 / 3))%Q]; [(3 * (100 / 3))%Q]].
Proof. vm_compute. reflexivity. Qed.

Section RankOrder.
Variable row : list Q.

Local Abbreviation ranked_before := (ranked_before row).

Lemma beats_spec (c t : nat) : beats row c t = true <-> ranked_before c t.
Proof.
  unfold beats, ranked_before.
  rewrite orb_true_iff, andb_true_iff, negb_true_iff, Qeq_bool_iff, Nat.ltb_lt.
  split; (intros [H|H]; [left|right; exact H]).
  - destruct (Qlt_le_dec (score row t) (score row c)) as [Hlt|Hle]; [exact Hlt|].
    apply Qle_bool_iff in Hle. congruence.
  - destruct (Qle_bool (score row c) (score row t)) eqn:E; [|reflexivity].
    apply Qle_bool_iff in E. lra.
Qed.

Lemma ranked_before_irrefl (c : nat) : ~ ranked_before c c.
Proof. unfold ranked_before. intros [H|[_ H]]; [lra|lia]. Qed.

Lemma ranked_before_asym (c t : nat) : ranked_before c t -> ~ ranked_before t c.
Proof. unfold ranked_before. intros [H|[H1 H2]] [H'|[H1' H2']]; try lra; lia. Qed.

Lemma ranked_before_trans (a b c : nat) :
  ranked_before a b -> ranked_before b c -> ranked_before a c.
Proof.
  unfold ranked_before. intros [H|[H1 H2]] [H'|[H1' H2']].
  - left; lra.
  - left; lra.
  - left; lra.
  - right; split; [lra|lia].
Qed.

Lemma insert_desc_perm (i : nat) (l : list nat) :
  Permutation (insert_desc row i l) (i :: l).
Proof.
  induction l as [|j l IH]; simpl; [reflexivity|].
  destruct (Qle_bool (score row j) (score row i)); [reflexivity|].
  rewrite IH. apply perm_swap.
Qed.

Lemma insert_desc_sorted (i : nat) (l : list nat) :
  StronglySorted ranked_before l ->
  Forall (fun j => (i < j)%nat) l ->
  StronglySorted ranked_before (insert_desc row i l).
Proof.
  induction 1 as [|j l Hl IH Hj]; intros Hi; simpl.
  - repeat constructor.
  - inversion Hi as [|? ? Hij Hil]; subst.
    destruct (Qle_bool (score row j) (score row i)) eqn:E.
    + apply Qle_bool_iff in E.
      assert (Hbefore : ranked_before i j).
      { unfold ranked_before.
        destruct (Qlt_le_dec (score row j) (score row i)) as [Hlt|Hle];
          [left; exact Hlt|right; split; [lra|exact Hij]]. }
      constructor; [constructor; assumption|].
      constructor; [exact Hbefore|].
      eapply List.Forall_impl; [|exact Hj].
      intros a Ha. eapply ranked_before_trans; eassumption.
    + assert (Hbefore : ranked_before j i).
      { left. destruct (Qlt_le_dec (score row i) (score row j)) as [Hlt|Hle];
          [exact Hlt|]. apply Qle_bool_iff in Hle. congruence. }
      constructor; [apply IH; exact Hil|].
      rewrite (insert_desc_perm i l). constructor; assumption.
Qed.

Lemma argsort_from_sorted (s n : nat) :
  let l := fold_right (insert_desc row) [] (seq s n) in
  StronglySorted ranked_before l /\ Permutation l (seq s n).
Proof.
  revert s. induction n as [|n IH]; intros s; simpl.
  - split; constructor.
  - destruct (IH (S s)) as [Hs Hp]. split.
    + apply insert_desc_sorted; [exact Hs|].
      rewrite Hp. apply List.Forall_forall. intros j Hj. apply in_seq in Hj. lia.
    + rewrite insert_desc_perm. constructor. exact Hp.
Qed.

Lemma argsort_desc_sorted : StronglySorted ranked_before (argsort_desc row).
Proof. apply (argsort_from_sorted 0 (length row)). Qed.

Lemma argsort_desc_perm : Permutation (argsort_desc row) (seq 0 (length row)).
Proof. apply (argsort_from_sorted 0 (length row)). Qed.

Lemma argsort_desc_length : length (argsort_desc row) = length row.
Proof. rewrite (Permutation_length argsort_desc_perm). apply length_seq. Qed.

Lemma argsort_desc_NoDup : List.NoDup (argsort_desc row).
Proof.
  eapply Permutation_NoDup; [symmetry; apply argsort_desc_perm|apply seq_NoDup].
Qed.

Lemma argsort_desc_In (t : nat) : In t (argsort_desc row) <-> (t < length row)%nat.
Proof.
  split; intros H.
  - apply (Permutation_in _ argsort_desc_perm) in H. apply in_seq in H. lia.
  - apply (Permutation_in _ (Permutation_sym argsort_desc_perm)).
    apply in_seq. lia.
Qed.

(** In a list sorted by [ranked_before], a member lies in the first [k]
    places exactly when fewer than [k] members are ranked before it. *)
Lemma sorted_prefix_rank (l : list nat) (t : nat) :
  StronglySorted ranked_before l -> In t l ->
  forall k : nat,
    In t (firstn k l) <->
    (length (List.filter (fun c => beats row c t) l) < k)%nat.
Proof.
  induction 1 as [|j l Hl IH Hj]; intros Hin k; [destruct Hin|].
  rewrite List.Forall_forall in Hj. simpl.
  destruct (Nat.eq_dec j t) as [->|Hne].
  - assert (E : beats row t t = false).
    { apply not_true_is_false. rewrite beats_spec. apply ranked_before_irrefl. }
    rewrite E.
    assert (E0 : List.filter (fun c => beats row c t) l = []).
    { clear -Hj. induction l as [|a l IHl]; [reflexivity|]. simpl.
      assert (Ha : beats row a t = false).
      { apply not_true_is_false. rewrite beats_spec.
        apply ranked_before_asym. apply Hj. left. reflexivity. }
      rewrite Ha. apply IHl. intros x Hx. apply Hj. right. exact Hx. }
    rewrite E0. destruct k; simpl; split; intros H; try lia; auto.
  - destruct Hin as [->|Hin]; [contradiction|].
    assert (E : beats row j t = true) by (apply beats_spec, Hj, Hin).
    rewrite E. destruct k as [|k]; simpl.
    + split; [intros []|lia].
    + rewrite <- Nat.succ_lt_mono. rewrite <- (IH Hin k).
      split; [intros [H|H]; [contradiction|exact H]|intros H; right; exact H].
Qed.

Lemma filter_length_perm {A} (f : A -> bool) (l l' : list A) :
  Permutation l l' ->
  length (List.filter f l) = length (List.filter f l').
Proof.
  induction 1 as [|x l l' _ IH|x y l|l l' l'' _ IH1 _ IH2]; simpl.
  - reflexivity.
  - destruct (f x); simpl; congruence.
  - destruct (f x), (f y); reflexivity.
  - congruence.
Qed.

(** The sorted prefix is the set of classes of rank below [k]. *)
Lemma argsort_prefix_rank (t k : nat) :
  In t (firstn k (argsort_desc row)) <->
  (t < length row)%nat /\ (rank row t < k)%nat.
Proof.
  unfold rank.
  rewrite <- (filter_length_perm _ _ _ argsort_desc_perm).
  split.
  - intros H.
    assert (Hin : In t (argsort_desc row)).
    { rewrite <- (firstn_skipn k (argsort_desc row)). apply in_or_app. left. exact H. }
    split; [apply argsort_desc_In; exact Hin|].
    apply (sorted_prefix_rank _ t argsort_desc_sorted Hin k). exact H.
  - intros [Ht Hr]. apply argsort_desc_In in Ht.
    apply (sorted_prefix_rank _ t argsort_desc_sorted Ht k). exact Hr.
Qed.

(** When no other class scores the same as [t], the rank of [t] is the
    number of classes that score strictly higher. *)
Lemma rank_without_ties (t : nat) :
  (forall c, (c < length row)%nat -> c <> t -> ~ (score row c == score row t)%Q) ->
  rank row t =
  length (List.filter (fun c => negb (Qle_bool (score row c) (score row t)))
                      (seq 0 (length row))).
Proof.
  intros Hties. unfold rank. f_equal. apply filter_ext_in.
  intros c Hc. apply in_seq in Hc. unfold beats.
  destruct (Qeq_bool (score row c) (score row t)) eqn:E; simpl;
    [|apply orb_false_r].
  apply Qeq_bool_iff in E.
  destruct (Nat.eq_dec c t) as [->|Hne].
  - rewrite Nat.ltb_irrefl. apply orb_false_r.
  - exfalso. apply (Hties c); [lia|exact Hne|exact E].
Qed.

End RankOrder.

(** *** Counting the [True] entries of [correct[:k]] *)

Lemma map_result_ok {A B} (f : A -> result B) (g : A -> B) (l : list A) :
  (forall x, In x l -> f x = Ok (g x)) -> map_result f l = Ok (map g l).
Proof.
  induction l as [|x l IH]; intros H; simpl; [reflexivity|].
  rewrite (H x) by (left; reflexivity).
  rewrite IH by (intros y Hy; apply H; right; exact Hy). reflexivity.
Qed.

Lemma fold_left_max_spec (xs : list Z) (x : Z) :
  let m := fold_left Z.max xs x in
  (m = x \/ In m xs) /\ x <= m /\ List.Forall (fun k => k <= m) xs.
Proof.
  revert x. induction xs as [|y xs IH]; intros x; simpl.
  - split; [left; reflexivity|]. split; [lia|constructor].
  - destruct (IH (Z.max x y)) as (Hin & Hle & Hall).
    split; [|split].
    + destruct Hin as [Hm|Hm]; [|right; right; exact Hm].
      rewrite Hm. destruct (Z.max_spec x y) as [[_ ->]|[_ ->]]; auto.
    + lia.
    + constructor; [lia|exact Hall].
Qed.

Lemma py_max_seq_spec (xs : list Z) :
  xs <> [] ->
  exists m, py_max_seq xs = Ok m /\ In m xs /\ List.Forall (fun k => k <= m) xs.
Proof.
  destruct xs as [|x xs]; [congruence|]. intros _.
  exists (fold_left Z.max xs x). split; [reflexivity|].
  destruct (fold_left_max_spec xs x) as (Hin & Hle & Hall).
  split; [destruct Hin as [->|Hin]; [left; reflexivity|right; exact Hin]|].
  constructor; assumption.
Qed.

Lemma zip_with_repeat_r {A B C} (f : A -> B -> C) (g : nat -> A) (t : B) (js : list nat) :
  zip_with f (map g js) (repeat t (length js)) = map (fun j => f (g j) t) js.
Proof. induction js as [|j js IH]; simpl; [reflexivity|]. rewrite IH. reflexivity. Qed.

Lemma map_nth_seq_firstn {A} (d : A) (p : list A) (k : nat) :
  (k <= length p)%nat -> map (fun j => nth j p d) (seq 0 k) = firstn k p.
Proof.
  revert k. induction p as [|a p IH]; intros k Hk; simpl in Hk.
  - assert (k = 0%nat) as -> by lia. reflexivity.
  - destruct k as [|k]; [reflexivity|]. simpl.
    rewrite <- seq_shift, map_map. simpl. rewrite IH by lia. reflexivity.
Qed.

Lemma count_heads_split (b : nat -> bool) (G : nat -> list bool) (js : list nat) :
  length (List.filter (fun x : bool => x) (concat (map (fun j => b j :: G j) js))) =
  (length (List.filter (fun x : bool => x) (map b js)) +
   length (List.filter (fun x : bool => x) (concat (map G js))))%nat.
Proof.
  induction js as [|j js IH]; simpl; [reflexivity|].
  destruct (b j); simpl; rewrite !List.filter_app, !List.length_app, IH; lia.
Qed.

Lemma concat_map_nil {A B} (js : list A) :
  concat (map (fun _ => @nil B) js) = [].
Proof. induction js; simpl; auto. Qed.

(** Summing row by row of [correct] is the same as summing sample by sample. *)
Lemma count_rows_columns (js : list nat) (ps : list (list Z)) (ts : list Z) :
  length (List.filter (fun x : bool => x)
            (concat (map (fun j => zip_with Z.eqb (map (fun r => nth j r 0) ps) ts) js))) =
  list_sum (map (fun pt => length (List.filter (fun x : bool => x)
                                     (map (fun j => nth j (fst pt) 0 =? snd pt) js)))
                (combine ps ts)).
Proof.
  revert ts. induction ps as [|p ps IH]; intros ts; simpl.
  - rewrite concat_map_nil. reflexivity.
  - destruct ts as [|t ts]; simpl.
    + rewrite concat_map_nil. reflexivity.
    + rewrite (count_heads_split (fun j => nth j p 0 =? t)
                 (fun j => zip_with Z.eqb (map (fun r => nth j r 0) ps) ts)).
      rewrite IH. reflexivity.
Qed.

Lemma count_eq_NoDup (t : Z) (q : list Z) :
  List.NoDup q ->
  length (List.filter (fun x : bool => x) (map (fun x => x =? t) q)) =
  if existsb (fun x => x =? t) q then 1%nat else 0%nat.
Proof.
  induction 1 as [|x q Hx Hq IH]; simpl; [reflexivity|].
  destruct (Z.eqb_spec x t) as [->|Hne]; simpl; [|exact IH].
  rewrite IH.
  assert (E : existsb (fun x => x =? t) q = false).
  { apply not_true_is_false. intros He. apply existsb_exists in He.
    destruct He as (y & Hy & Hyt). apply Z.eqb_eq in Hyt. subst. contradiction. }
  rewrite E. reflexivity.
Qed.

Lemma list_sum_indicator {A} (h : A -> bool) (l : list A) :
  list_sum (map (fun x => if h x then 1%nat else 0%nat) l) = length (List.filter h l).
Proof.
  induction l as [|x l IH]; simpl; [reflexivity|].
  destruct (h x); simpl; rewrite IH; reflexivity.
Qed.

Lemma combine_map_l {A B C} (f : A -> B) (l : list A) (l' : list C) :
  combine (map f l) l' = map (fun xy => (f (fst xy), snd xy)) (combine l l').
Proof.
  revert l'. induction l as [|x l IH]; intros [|y l']; simpl; try reflexivity.
  rewrite IH. reflexivity.
Qed.

(** The indices [topk] returns for one row and a label [t]: [t] is one of the
    first [k] exactly when it is among the [k] highest-scoring classes. *)
Lemma topk_prefix_in_topk (row : list Q) (maxk k : nat) (t : Z) :
  (k <= maxk)%nat ->
  existsb (fun x => x =? t)
          (firstn k (map Z.of_nat (firstn maxk (argsort_desc row)))) =
  in_topk (Z.of_nat k) row t.
Proof.
  intros Hk. rewrite firstn_map, firstn_firstn, Nat.min_l by exact Hk.
  apply eq_true_iff_eq. rewrite existsb_exists. unfold in_topk, len.
  rewrite !andb_true_iff, Z.leb_le, !Z.ltb_lt. split.
  - intros (x & Hx & Hxt). apply Z.eqb_eq in Hxt. subst t.
    apply in_map_iff in Hx. destruct Hx as (n & <- & Hn).
    apply argsort_prefix_rank in Hn. rewrite Nat2Z.id. lia.
  - intros [[H0 Hlt] Hr]. exists t. split; [|apply Z.eqb_refl].
    apply in_map_iff. exists (Z.to_nat t). split; [lia|].
    apply argsort_prefix_rank. lia.
Qed.

Lemma topk_row_NoDup (row : list Q) (maxk : nat) :
  List.NoDup (map Z.of_nat (firstn maxk (argsort_desc row))).
Proof.
  apply Finite.Injective_map_NoDup; [intros x y; apply Nat2Z.inj|].
  pose proof (argsort_desc_NoDup row) as H.
  rewrite <- (firstn_skipn maxk (argsort_desc row)) in H.
  apply NoDup_app_remove_r in H. exact H.
Qed.

Lemma zip_with_seq_repeat {A B C} (f : A -> B -> C) (g : nat -> A) (t : B) (n : nat) :
  zip_with f (map g (seq 0 n)) (repeat t n) = map (fun j => f (g j) t) (seq 0 n).
Proof.
  pose proof (zip_with_repeat_r f g t (seq 0 n)) as H.
  rewrite length_seq in H. exact H.
Qed.

Lemma NoDup_firstn_of {A} (k : nat) (l : list A) :
  List.NoDup l -> List.NoDup (firstn k l).
Proof.
  intros H. rewrite <- (firstn_skipn k l) in H.
  apply NoDup_app_remove_r in H. exact H.
Qed.

(** One sample's column of [correct[:k]] holds a single [True] when the
    label is among the row's [k] highest-scoring classes, and none otherwise. *)
Lemma column_count (row : list Q) (maxk k : nat) (t : Z) :
  (k <= maxk)%nat -> (maxk <= length row)%nat ->
  length (List.filter (fun x : bool => x)
            (map (fun j => nth j (map Z.of_nat (firstn maxk (argsort_desc row))) 0 =? t)
                 (seq 0 k))) =
  if in_topk (Z.of_nat k) row t then 1%nat else 0%nat.
Proof.
  intros Hk Hmax.
  set (p := map Z.of_nat (firstn maxk (argsort_desc row))).
  assert (Hlen : length p = maxk).
  { unfold p. rewrite length_map, length_firstn, argsort_desc_length. lia. }
  rewrite <- (map_map (fun j => nth j p 0) (fun x => x =? t)).
  rewrite map_nth_seq_firstn by lia.
  rewrite count_eq_NoDup by (apply NoDup_firstn_of, topk_row_NoDup).
  unfold p. rewrite topk_prefix_in_topk by exact Hk. reflexivity.
Qed.

(** [accuracy] returns, for each [k], the hit count scaled by
    [100.0 / batch_size]. *)
Lemma accuracy_computes (output : list (list Q)) (target topk : list Z) :
  topk <> [] ->
  List.Forall (fun k => 0 <= k) topk ->
  List.Forall (fun row => List.Forall (fun k => k <= len row) topk) output ->
  length target = length output ->
  1 <= len target ->
  accuracy output target topk =
  Ok (map (fun k => [(inject_Z (topk_hits k output target)
                      * (100 / inject_Z (len target)))%Q]) topk).
Proof.
  intros Hne Hpos Hcls Hlen Hbatch.
  destruct (py_max_seq_spec topk Hne) as (maxk & Hmax & Hin & Hall).
  rewrite List.Forall_forall in Hpos, Hcls, Hall.
  assert (Hmaxk : 0 <= maxk) by (apply Hpos; exact Hin).
  unfold accuracy. rewrite Hmax. simpl.
  set (prow := fun row : list Q =>
                 map Z.of_nat (firstn (Z.to_nat maxk) (argsort_desc row))).
  assert (Htopk : tensor_topk maxk output = Ok (map prow output)).
  { apply map_result_ok. intros row Hrow. unfold topk_row.
    specialize (Hcls row Hrow). rewrite List.Forall_forall in Hcls.
    specialize (Hcls maxk Hin).
    destruct (Z.ltb_spec maxk 0); [lia|].
    destruct (Z.ltb_spec (len row) maxk); [lia|]. reflexivity. }
  rewrite Htopk. simpl. unfold expand_as.
  rewrite Hlen, Nat.eqb_refl. simpl.
  apply map_result_ok. intros k Hk.
  destruct (Z.eqb_spec (len target) 0) as [E|_]; [lia|].
  do 3 f_equal. unfold count_true, topk_hits, len. do 2 f_equal.
  unfold transpose. rewrite zip_with_seq_repeat.
  assert (Hk0 : 0 <= k <= maxk) by (split; [apply Hpos|apply Hall]; exact Hk).
  unfold slice_to. destruct (Z.leb_spec 0 k) as [_|]; [|lia].
  rewrite firstn_map, take_seq, Nat.min_l by lia.
  rewrite count_rows_columns, combine_map_l, map_map.
  rewrite <- list_sum_indicator. f_equal.
  apply map_ext_in. intros [row t] Hrt. simpl.
  assert (Hrow : In row output) by (eapply in_combine_l; exact Hrt).
  specialize (Hcls row Hrow). rewrite List.Forall_forall in Hcls.
  specialize (Hcls maxk Hin). unfold len in Hcls.
  unfold prow. rewrite column_count by lia.
  rewrite Z2Nat.id by lia. reflexivity.
Qed.



(** ** Statelessness of the two utilities *)

Section CallFacts.
Import AverageMeter.

Lemma accuracy_call_pure (c : call) (meter : t) output target topk :
  c = CallAccuracy output target topk ->
  exec c meter = (Returned (accuracy output target topk), meter).
Proof. intros ->. reflexivity. Qed.





End CallFacts.

(** ** Signal handlers *)

Lemma main_install_handlers_present (os : OS) (tbl : handler_table) :
  is_Some (environ os !! "SLURM_JOB_ID") ->
  main_install_handlers os tbl SIGUSR1 = Handler handle_sigusr1 /\
  main_install_handlers os tbl SIGTERM = Handler handle_sigterm.
Proof.
  intros H. unfold main_install_handlers.
  destruct (decide (is_Some (environ os !! "SLURM_JOB_ID"))); [|contradiction].
  split; reflexivity.
Qed.

Lemma main_install_handlers_absent (os : OS) (tbl : handler_table) :
  environ os !! "SLURM_JOB_ID" = None ->
  main_install_handlers os tbl = tbl.
Proof.
  intros H. unfold main_install_handlers.
  destruct (decide (is_Some (environ os !! "SLURM_JOB_ID"))) as [[v Hv]|_];
    [congruence|reflexivity].
Qed.

(** C10. Starting from the default table, [main] installs the two handlers
    exactly when [SLURM_JOB_ID] is in the environment.  With the variable set
    to [job], [SIGUSR1] runs [scontrol requeue job] through [os.system] and
    then raises [SystemExit]; [SIGTERM] runs a handler that returns at once
    and changes nothing.  Without it both signals keep the default action. *)
Theorem signal_handlers_iff_slurm_job (os : OS) :
  let tbl := main_install_handlers os default_handlers in
  ((tbl SIGUSR1 = Handler handle_sigusr1 /\ tbl SIGTERM = Handler handle_sigterm)
   <-> is_Some (environ os !! "SLURM_JOB_ID")) /\
  match environ os !! "SLURM_JOB_ID" with
  | Some job =>
      deliver SIGUSR1 tbl os =
        Some (Raise SystemExit,
              {| environ := environ os;
                 commands := commands os ++ ["scontrol requeue " +:+ job] |}) /\
      deliver SIGTERM tbl os = Some (Ok tt, os)
  | None =>
      tbl SIGUSR1 = SIG_DFL /\ tbl SIGTERM = SIG_DFL /\
      deliver SIGUSR1 tbl os = None /\ deliver SIGTERM tbl os = None
  end.
Proof.
  intros tbl. subst tbl. split.
  - split; [|apply main_install_handlers_present].
    intros [H _]. destruct (environ os !! "SLURM_JOB_ID") eqn:E; [eauto|].
    rewrite main_install_handlers_absent in H by exact E. discriminate.
  - destruct (environ os !! "SLURM_JOB_ID") as [job|] eqn:E.
    + destruct (main_install_handlers_present os default_handlers) as [H1 H2];
        [rewrite E; eauto|].
      unfold deliver. rewrite H1, H2. split; [|reflexivity].
      unfold handle_sigusr1, bind, get, os_system, modify, raise, getenv_str.
      rewrite E. reflexivity.
    + rewrite main_install_handlers_absent by exact E.
      repeat split; reflexivity.
Qed.

Example sigusr1_requeues_job :
  let os := {| environ := {["SLURM_JOB_ID" := "4242"]}; commands := [] |} in
  deliver SIGUSR1 (main_install_handlers os default_handlers) os
  = Some (Raise SystemExit,
          {| environ := environ os; commands := ["scontrol requeue 4242"] |}).
Proof.
  vm_compute. reflexivity.
Qed.

(** ** The train/validation split *)

Section SplitFacts.
Variable shuffle : Z -> list nat -> list nat.

Lemma slice_to_from {A} (k : Z) (l : list A) :
  slice_to k l ++ slice_from k l = l.
Proof.
  unfold slice_to, slice_from. destruct (0 <=? k); apply firstn_skipn.
Qed.

Lemma slice_to_length {A} (k : Z) (l : list A) :
  0 <= k <= len l -> len (slice_to k l) = k.
Proof.
  intros Hk. unfold slice_to, len in *.
  destruct (Z.leb_spec 0 k); [|lia]. rewrite length_firstn. lia.
Qed.

Lemma slice_from_length {A} (k : Z) (l : list A) :
  0 <= k <= len l -> len (slice_from k l) = len l - k.
Proof.
  intros Hk. unfold slice_from, len in *.
  destruct (Z.leb_spec 0 k); [|lia]. rewrite length_skipn. lia.
Qed.

Lemma py_range_length (n : Z) : 0 <= n -> len (py_range n) = n.
Proof. intros Hn. unfold len, py_range. rewrite length_seq. lia. Qed.

(** The two index lists are the two sides of one cut through the shuffled
    list: together they hold every shuffled index, not only the first
    [num_train]. *)
Lemma split_is_a_cut (train_percent n : Z) :
  fst (split_train_val shuffle train_percent n)
    ++ snd (split_train_val shuffle train_percent n)
  = shuffle 10 (py_range n).
Proof. unfold split_train_val. simpl. apply slice_to_from. Qed.

(** Every worker computes the same split: it depends on the percentage and
    the dataset size only. *)
Lemma split_same_on_every_worker (gpu1 gpu2 : Z) (train_percent n : Z) :
  (fun _ : Z => split_train_val shuffle train_percent n) gpu1
  = (fun _ : Z => split_train_val shuffle train_percent n) gpu2.
Proof. reflexivity. Qed.

Lemma NoDup_app_no_common {A} (l1 l2 : list A) (x : A) :
  List.NoDup (l1 ++ l2) -> In x l1 -> In x l2 -> False.
Proof.
  intros Hnd H1 H2. apply in_split in H2. destruct H2 as (a & b & ->).
  rewrite app_assoc in Hnd. apply NoDup_remove_2 in Hnd.
  apply Hnd. rewrite <- app_assoc. apply in_or_app. left. exact H1.
Qed.

Hypothesis shuffle_perm : forall seed l, Permutation l (shuffle seed l).

Lemma shuffle_length (seed : Z) (l : list nat) :
  length (shuffle seed l) = length l.
Proof using shuffle_perm. symmetry. apply Permutation_length, shuffle_perm. Qed.

Lemma split_disjoint (train_percent n : Z) (i : nat) :
  In i (fst (split_train_val shuffle train_percent n)) ->
  In i (snd (split_train_val shuffle train_percent n)) -> False.
Proof using shuffle_perm.
  assert (Hnd : List.NoDup (shuffle 10 (py_range n))).
  { eapply Permutation_NoDup; [apply shuffle_perm|apply seq_NoDup]. }
  rewrite <- (split_is_a_cut train_percent n) in Hnd.
  apply NoDup_app_no_common. exact Hnd.
Qed.

Lemma split_sizes (train_percent n : Z) :
  let num_train := num_train_of train_percent n in
  let num_val := num_val_of num_train in
  0 <= num_train - num_val <= n ->
  len (fst (split_train_val shuffle train_percent n)) = num_train - num_val /\
  len (snd (split_train_val shuffle train_percent n)) = n - (num_train - num_val).
Proof using shuffle_perm.
  intros num_train num_val H.
  assert (Hl : len (shuffle 10 (py_range n)) = n).
  { unfold len. rewrite shuffle_length. apply py_range_length. lia. }
  unfold split_train_val. simpl. fold num_train. fold num_val.
  rewrite slice_to_length, slice_from_length by lia. lia.
Qed.

(** With the whole dataset in use the validation set has [num_val] items. *)
Lemma split_all_data (n : Z) :
  0 <= n ->
  len (snd (split_train_val shuffle 100 n)) = num_val_of (num_train_of 100 n).
Proof using shuffle_perm.
  intros Hn.
  assert (E : num_train_of 100 n = n).
  { unfold num_train_of, py_int. rewrite Z.mul_comm. apply Z.quot_mul. lia. }
  destruct (split_sizes 100 n) as [_ H].
  - simpl. rewrite E. unfold num_val_of, py_int.
    pose proof (Z.quot_pos n 10). pose proof (Z.quot_le_upper_bound n 10 n). lia.
  - rewrite H, E. lia.
Qed.

(** C7, at [--train-percent 10] on the 50000 CIFAR training images: the
    script computes [num_val = 500], trains on 4500 indices, and validates on
    the remaining 45500, so the two sets together are the whole dataset and
    not the first 5000 shuffled indices. *)
Theorem split_ten_percent_validation_size :
  num_train_of 10 50000 = 5000 /\
  num_val_of (num_train_of 10 50000) = 500 /\
  len (fst (split_train_val shuffle 10 50000)) = 4500 /\
  len (snd (split_train_val shuffle 10 50000)) = 45500 /\
  len (fst (split_train_val shuffle 10 50000)
       ++ snd (split_train_val shuffle 10 50000)) = 50000.
Proof using shuffle_perm.
  assert (E1 : num_train_of 10 50000 = 5000) by reflexivity.
  assert (E2 : num_val_of 5000 = 500) by reflexivity.
  split; [exact E1|]. split; [rewrite E1; exact E2|].
  destruct (split_sizes 10 50000) as [H1 H2].
  { simpl. rewrite E1, E2. lia. }
  rewrite E1, E2 in H1, H2.
  split; [rewrite H1; reflexivity|]. split; [rewrite H2; reflexivity|].
  rewrite split_is_a_cut. unfold len. rewrite shuffle_length.
  apply py_range_length. lia.
Qed.

End SplitFacts.

Lemma split_ten_percent_validation_size_witness :
  len (fst (split_train_val (fun _ l => rev l) 10 50000)) = 4500 /\
  len (snd (split_train_val (fun _ l => rev l) 10 50000)) = 45500.
Proof.
  destruct (split_ten_percent_validation_size (fun _ l => rev l))
    as (_ & _ & Htrain & Hval & _).
  - intros _ l. apply Permutation_rev.
  - split; assumption.
Defined.

(** ** Ordered dicts and [load_state_dict] *)

Section DictFacts.
Context {T : Type}.
Implicit Types (sd model : list (string * T)) (k : string).

Lemma sd_get_map_values (g : string -> T -> T) sd k :
  sd_get (map (fun kv => (fst kv, g (fst kv) (snd kv))) sd) k = g k <$> sd_get sd k.
Proof.
  induction sd as [|[k' v] sd IH]; simpl; [reflexivity|].
  destruct (decide (k' = k)) as [->|_]; [reflexivity|exact IH].
Qed.

Lemma map_values_keys (g : string -> T -> T) sd :
  map fst (map (fun kv => (fst kv, g (fst kv) (snd kv))) sd) = map fst sd.
Proof. rewrite map_map. reflexivity. Qed.

Lemma sd_alter_keys k (f : T -> T) sd : map fst (sd_alter k f sd) = map fst sd.
Proof.
  pose (g := fun (k' : string) (v : T) => if decide (k' = k) then f v else v).
  change (sd_alter k f sd) with (map (fun kv => (fst kv, g (fst kv) (snd kv))) sd).
  apply map_values_keys.
Qed.

Lemma sd_get_alter k (f : T -> T) sd k' :
  sd_get (sd_alter k f sd) k' =
  if decide (k' = k) then f <$> sd_get sd k' else sd_get sd k'.
Proof.
  pose (g := fun (k0 : string) (v : T) => if decide (k0 = k) then f v else v).
  change (sd_alter k f sd) with (map (fun kv => (fst kv, g (fst kv) (snd kv))) sd).
  rewrite sd_get_map_values. unfold g.
  destruct (decide (k' = k)); [reflexivity|]. destruct (sd_get sd k'); reflexivity.
Qed.

Lemma sd_get_is_Some sd k : is_Some (sd_get sd k) <-> In k (map fst sd).
Proof.
  induction sd as [|[k' v] sd IH]; simpl.
  - split; [intros [? ?]; discriminate|intros []].
  - destruct (decide (k' = k)) as [->|Hne].
    + split; [intros _; left; reflexivity|eauto].
    + rewrite IH. split; [intros H; right; exact H|intros [H|H]; [contradiction|exact H]].
Qed.

Lemma load_state_dict_keys model keys (get : string -> option T) :
  map fst (fst (load_state_dict model keys get)) = map fst model.
Proof. unfold load_state_dict. simpl. rewrite map_map. reflexivity. Qed.

Lemma sd_get_load model keys (get : string -> option T) k :
  sd_get (fst (load_state_dict model keys get)) k =
  (fun t => default t (get k)) <$> sd_get model k.
Proof.
  unfold load_state_dict. simpl.
  apply (sd_get_map_values (fun k' t => default t (get k'))).
Qed.

Lemma filter_nil_iff {A} (p : A -> bool) (l : list A) :
  List.filter p l = [] <-> forall x, In x l -> p x = false.
Proof.
  induction l as [|x l IH]; simpl.
  - split; [intros _ ? []|reflexivity].
  - destruct (p x) eqn:E.
    + split; [discriminate|]. intros H. specialize (H x (or_introl eq_refl)). congruence.
    + rewrite IH. split.
      * intros H y [<-|Hy]; [exact E|apply H; exact Hy].
      * intros H y Hy. apply H. right. exact Hy.
Qed.

(** No unexpected key: every key of the loaded dict names a tensor of the
    module. *)
Lemma load_unexpected_nil model keys (get : string -> option T) :
  snd (snd (load_state_dict model keys get)) = [] <->
  forall k, In k keys -> In k (map fst model).
Proof.
  unfold load_state_dict. simpl. rewrite filter_nil_iff.
  split; intros H k Hk; specialize (H k Hk).
  - apply negb_false_iff, bool_decide_eq_true in H. apply list_elem_of_In. exact H.
  - apply negb_false_iff, bool_decide_eq_true. apply list_elem_of_In. exact H.
Qed.

Lemma load_missing_spec model keys (get : string -> option T) k :
  In k (fst (snd (load_state_dict model keys get))) <->
  In k (map fst model) /\ get k = None.
Proof.
  unfold load_state_dict. simpl. rewrite List.filter_In.
  destruct (get k); split; intros [H1 H2]; split; congruence.
Qed.

(** A strict load succeeds exactly between dicts with the same keys, and
    then every tensor comes from the loaded dict. *)
Lemma load_state_dict_strict_ok model sd :
  (forall k, In k (map fst model) <-> In k (map fst sd)) ->
  exists model',
    load_state_dict_strict model sd = Ok model' /\
    map fst model' = map fst model /\
    forall k, sd_get model' k = sd_get sd k.
Proof.
  intros Hkeys. unfold load_state_dict_strict.
  destruct (load_state_dict model (map fst sd) (sd_get sd))
    as [model' [missing unexpected]] eqn:E.
  assert (Hm : missing = []).
  { destruct missing as [|k ?]; [reflexivity|].
    assert (Hk : In k (fst (snd (load_state_dict model (map fst sd) (sd_get sd)))))
      by (rewrite E; left; reflexivity).
    apply load_missing_spec in Hk. destruct Hk as [Hk Hnone].
    apply Hkeys, sd_get_is_Some in Hk. rewrite Hnone in Hk.
    destruct Hk; discriminate. }
  assert (Hu : unexpected = []).
  { change unexpected with (snd (snd (model', (missing, unexpected)))).
    rewrite <- E. apply load_unexpected_nil. intros k Hk. apply Hkeys. exact Hk. }
  subst. exists model'. split; [reflexivity|].
  change model' with (fst (model', (@nil string, @nil string))). rewrite <- E.
  split; [apply load_state_dict_keys|].
  intros k. rewrite sd_get_load.
  destruct (sd_get model k) eqn:Hg; simpl.
  - assert (Hs : is_Some (sd_get sd k)).
    { apply sd_get_is_Some, Hkeys, sd_get_is_Some. eauto. }
    destruct Hs as [v ->]. reflexivity.
  - destruct (sd_get sd k) eqn:Hs; [|reflexivity].
    assert (Hin : is_Some (sd_get model k)).
    { apply sd_get_is_Some, Hkeys, sd_get_is_Some. eauto. }
    rewrite Hg in Hin. destruct Hin; discriminate.
Qed.

End DictFacts.

(** ** Loading the pretrained weights *)

Section SetupFacts.
Context {F : Framework}.

Lemma map_to_list_keys (m : gmap string Tensor) (k : string) :
  In k (map fst (map_to_list m)) <-> is_Some (m !! k).
Proof.
  rewrite in_map_iff. split.
  - intros ([k' v] & <- & Hin). apply list_elem_of_In, elem_of_map_to_list in Hin.
    simpl. eauto.
  - intros [v Hv]. exists (k, v). split; [reflexivity|].
    apply list_elem_of_In, elem_of_map_to_list. exact Hv.
Qed.

(** What [build_model] returns when the assertion holds. *)
Lemma build_model_ok (args : Args.t) :
  matches_except_head args ->
  exists model wt b,
    build_model args = Ok model /\
    map fst model = map fst (construct_model args) /\
    sd_get (construct_model args) "fc.weight" = Some wt /\
    sd_get (construct_model args) "fc.bias" = Some b /\
    sd_get model "fc.weight" = Some (normal_ 0 (1 # 100) wt) /\
    sd_get model "fc.bias" = Some (zero_ b) /\
    agrees_with_pretrained args model.
Proof.
  intros [Hmiss Hunexp].
  set (fresh := construct_model args) in *.
  set (sd := Args.pretrained args) in *.
  set (keys := map fst (map_to_list sd)).
  set (get := fun k => sd !! k).
  assert (Hmissing : fst (snd (load_state_dict fresh keys get)) = fc_keys) by exact Hmiss.
  assert (Hunexpected : snd (snd (load_state_dict fresh keys get)) = []).
  { apply load_unexpected_nil. intros k Hk. apply Hunexp, map_to_list_keys, Hk. }
  assert (Hhead : forall k, In k fc_keys -> In k (map fst fresh) /\ sd !! k = None).
  { intros k Hk. rewrite <- Hmissing in Hk. apply load_missing_spec in Hk. exact Hk. }
  destruct (Hhead "fc.weight") as [Hw Hwn]; [left; reflexivity|].
  destruct (Hhead "fc.bias") as [Hb Hbn]; [right; left; reflexivity|].
  apply sd_get_is_Some in Hw. destruct Hw as [wt Hwt].
  apply sd_get_is_Some in Hb. destruct Hb as [b Hbt].
  unfold build_model. fold fresh sd keys get.
  destruct (load_state_dict fresh keys get) as [loaded [missing unexpected]] eqn:E.
  simpl in Hmissing, Hunexpected. subst missing unexpected.
  destruct (decide (fc_keys = fc_keys /\ @nil string = [])) as [_|Hn];
    [|exfalso; apply Hn; split; reflexivity].
  assert (Hloaded : forall k, sd_get loaded k = (fun t => default t (get k)) <$> sd_get fresh k).
  { intros k. change loaded with (fst (loaded, (fc_keys, @nil string))).
    rewrite <- E. apply sd_get_load. }
  assert (Hkeys : map fst loaded = map fst fresh).
  { change loaded with (fst (loaded, (fc_keys, @nil string))).
    rewrite <- E. apply load_state_dict_keys. }
  eexists. exists wt, b. split; [reflexivity|].
  split; [rewrite !sd_alter_keys; exact Hkeys|].
  split; [exact Hwt|]. split; [exact Hbt|].
  split; [|split].
  - rewrite !sd_get_alter. simpl.
    destruct (decide ("fc.weight" = "fc.bias")) as [Hd|_]; [discriminate|].
    destruct (decide ("fc.weight" = "fc.weight")) as [_|Hd]; [|contradiction].
    rewrite Hloaded, Hwt. unfold get. rewrite Hwn. reflexivity.
  - rewrite sd_get_alter.
    destruct (decide ("fc.bias" = "fc.bias")) as [_|Hd]; [|contradiction].
    rewrite sd_get_alter.
    destruct (decide ("fc.bias" = "fc.weight")) as [Hd|_]; [discriminate|].
    rewrite Hloaded, Hbt. unfold get. rewrite Hbn. reflexivity.
  - intros k t Hk. change (sd !! k = Some t) in Hk.
    assert (Hnot : ~ In k fc_keys).
    { intros Hin. destruct (Hhead k Hin) as [_ Hnone]. congruence. }
    split; [exact Hnot|].
    rewrite !sd_get_alter.
    destruct (decide (k = "fc.bias")) as [->|_];
      [exfalso; apply Hnot; right; left; reflexivity|].
    destruct (decide (k = "fc.weight")) as [->|_];
      [exfalso; apply Hnot; left; reflexivity|].
    rewrite Hloaded. unfold get. rewrite Hk.
    assert (Hin : is_Some (sd_get fresh k)).
    { apply sd_get_is_Some, Hunexp. rewrite Hk. eauto. }
    destruct Hin as [t0 ->]. reflexivity.
Qed.

Lemma build_model_cases (args : Args.t) :
  (matches_except_head args /\ exists model, build_model args = Ok model) \/
  (~ matches_except_head args /\ build_model args = Raise (AssertionError None)).
Proof.
  unfold build_model.
  destruct (load_state_dict (construct_model args)
              (map fst (map_to_list (Args.pretrained args)))
              (fun k => Args.pretrained args !! k))
    as [loaded [missing unexpected]] eqn:E.
  destruct (decide (missing = fc_keys /\ unexpected = [])) as [[Hm Hu]|Hn].
  - left. split; [|eauto]. split.
    + rewrite <- Hm. change missing with (fst (snd (loaded, (missing, unexpected)))).
      rewrite <- E. reflexivity.
    + intros k Hk. apply map_to_list_keys in Hk. revert k Hk.
      apply load_unexpected_nil with (get := fun k => Args.pretrained args !! k).
      rewrite E. exact Hu.
  - right. split; [|reflexivity]. intros [Hm Hu]. apply Hn. split.
    + rewrite <- Hm. change missing with (fst (snd (loaded, (missing, unexpected)))).
      rewrite <- E. reflexivity.
    + change unexpected with (snd (snd (loaded, (missing, unexpected)))).
      rewrite <- E. apply load_unexpected_nil.
      intros k Hk. apply Hu, map_to_list_keys, Hk.
Qed.

(** A failed assertion ends [main_worker] before anything but the command
    line is printed. *)
Lemma main_worker_setup_raises (gpu : Z) (args : Args.t) (w : World) (e : exn) :
  build_model args = Raise e ->
  main_worker gpu args w =
  (Raise e,
   if Args.rank args + gpu =? 0
   then {| stdout := stdout w ++ [ArgvLine (Args.argv args)];
           stats_file := stats_file w ++ [ArgvLine (Args.argv args)];
           checkpoint_pth := checkpoint_pth w |}
   else w).
Proof.
  intros E. unfold main_worker, setup, bind, lift. rewrite E. simpl.
  destruct (Args.rank args + gpu =? 0); reflexivity.
Qed.

(** C9. [build_model] succeeds exactly when the pretrained dict matches the
    network on everything but the classifier head.  On success the model has
    [fc.weight] redrawn by [normal_(0, 0.01)], [fc.bias] zeroed and every
    pretrained tensor in place; otherwise the worker raises the
    [AssertionError] before any training: the checkpoint is untouched and
    nothing but the command line has been printed. *)
Theorem pretrained_checked_before_training (gpu : Z) (args : Args.t) (w : World) :
  (matches_except_head args /\
   exists model wt b,
     build_model args = Ok model /\
     sd_get (construct_model args) "fc.weight" = Some wt /\
     sd_get (construct_model args) "fc.bias" = Some b /\
     sd_get model "fc.weight" = Some (normal_ 0 (1 # 100) wt) /\
     sd_get model "fc.bias" = Some (zero_ b) /\
     (forall k t, Args.pretrained args !! k = Some t -> sd_get model k = Some t))
  \/
  (~ matches_except_head args /\
   build_model args = Raise (AssertionError None) /\
   exists w',
     main_worker gpu args w = (Raise (AssertionError None), w') /\
     checkpoint_pth w' = checkpoint_pth w /\
     (forall l, In l (stdout w') -> In l (stdout w) \/ l = ArgvLine (Args.argv args))).
Proof.
  destruct (build_model_cases args) as [[Hm _]|[Hn Hr]].
  - left. split; [exact Hm|].
    destruct (build_model_ok args Hm) as (model & wt & b & H1 & _ & H2 & H3 & H4 & H5 & H6).
    exists model, wt, b. repeat (split; [assumption|]).
    intros k t Hk. apply (H6 k t Hk).
  - right. split; [exact Hn|]. split; [exact Hr|].
    eexists. split; [apply main_worker_setup_raises; exact Hr|].
    destruct (Args.rank args + gpu =? 0); simpl; split; auto.
    intros l Hl. apply in_app_or in Hl. destruct Hl as [Hl|[<-|[]]]; auto.
Qed.

Example toy_pretrained_matches :
  build_model (toy_args "freeze" 1)
  = Ok [("conv1.weight", 10); ("bn1.running_mean", 20); ("fc.weight", 7); ("fc.bias", 0)].
Proof. vm_compute. reflexivity. Qed.

End SetupFacts.

(** ** The epoch loop *)

Section EpochFacts.
Context {F : Framework}.

(** *** Exceptions of the evaluation code *)

Lemma accuracy_raises (output : list (list Q)) (target topk : list Z) :
  raises not_sanity_failure (accuracy output target topk).
Proof.
  unfold accuracy.
  apply raises_rbind; [destruct topk; simpl; [intros k; discriminate|exact I]|].
  intros maxk _.
  apply raises_rbind.
  { apply raises_map_result. intros row. unfold topk_row.
    destruct ((maxk <? 0) || (len row <? maxk)); simpl; [intros k; discriminate|exact I]. }
  intros pred _.
  apply raises_rbind.
  { unfold expand_as. destruct (length target =? length output)%nat; [exact I|].
    destruct target as [|t [|? ?]]; simpl; try exact I; intros k; discriminate. }
  intros expanded _.
  apply raises_map_result. intros k.
  destruct (len target =? 0); simpl; [intros k'; discriminate|exact I].
Qed.

Lemma meter_update_raises (v : Q) (n : Z) (m : AverageMeter.t) :
  raises not_sanity_failure (meter_update v n m).
Proof.
  unfold meter_update, AverageMeter.update.
  destruct (AverageMeter.count m + n =? 0); simpl; [intros k; discriminate|exact I].
Qed.

Lemma evaluate_raises (model : list (string * Tensor)) (name1 name5 : string)
    (loader : list (Images * list Z)) :
  raises not_sanity_failure (evaluate model name1 name5 loader).
Proof.
  unfold evaluate. apply raises_fold_result. intros meters b. unfold eval_batch.
  apply raises_rbind; [apply accuracy_raises|]. intros res _.
  destruct res as [|acc1 [|acc5 [|? ?]]]; simpl; try (intros k; discriminate).
  destruct acc1 as [|a1 ?]; simpl; [intros k; discriminate|].
  destruct acc5 as [|a5 ?]; simpl; [intros k; discriminate|].
  apply raises_rbind; [apply meter_update_raises|]. intros m1 _.
  apply raises_rbind; [apply meter_update_raises|]. intros m5 _. exact I.
Qed.

(** *** The sanity check *)

Lemma sanity_check_passes (reference : gmap string Tensor) (model : list (string * Tensor)) :
  (forall k t, reference !! k = Some t -> sd_get model k = Some t) ->
  sanity_check reference model = Ok tt.
Proof.
  intros H. unfold sanity_check.
  assert (Hl : forall kv, In kv (map_to_list reference) ->
                          sd_get model (fst kv) = Some (snd kv)).
  { intros [k t] Hin. apply H. apply elem_of_map_to_list, list_elem_of_In. exact Hin. }
  induction (map_to_list reference) as [|kv l IH]; simpl; [reflexivity|].
  rewrite (Hl kv) by (left; reflexivity).
  destruct (decide (snd kv = snd kv)) as [_|Hn]; [|contradiction].
  simpl. apply IH. intros kv' Hin. apply Hl. right. exact Hin.
Qed.

(** The check fails as soon as one pretrained tensor differs. *)
Lemma sanity_check_fails (reference : gmap string Tensor) (model : list (string * Tensor))
    (k : string) (t t' : Tensor) :
  reference !! k = Some t -> sd_get model k = Some t' -> t' <> t ->
  exists e, sanity_check reference model = Raise e.
Proof.
  intros Hr Hm Hne. unfold sanity_check.
  assert (Hin : In (k, t) (map_to_list reference)).
  { apply list_elem_of_In, elem_of_map_to_list. exact Hr. }
  induction (map_to_list reference) as [|kv l IH]; simpl; [destruct Hin|].
  destruct (sd_get model (fst kv)) as [t0|] eqn:E; [|eauto].
  destruct (decide (t0 = snd kv)) as [->|_]; [|eauto].
  simpl. apply IH. destruct Hin as [->|Hin]; [|exact Hin].
  simpl in E. congruence.
Qed.

(** *** Layout and backbone across a training step *)

Lemma same_layout_refl (st : Locals.t) : same_layout st st.
Proof. repeat split. Qed.

Lemma same_layout_trans (st1 st2 st3 : Locals.t) :
  same_layout st1 st2 -> same_layout st2 st3 -> same_layout st1 st3.
Proof.
  intros (A1 & B1 & C1) (A2 & B2 & C2). repeat split; congruence.
Qed.

Lemma same_backbone_refl (st : Locals.t) : same_backbone st st.
Proof. intros k _. reflexivity. Qed.

Lemma same_backbone_trans (st1 st2 st3 : Locals.t) :
  same_backbone st1 st2 -> same_backbone st2 st3 -> same_backbone st1 st3.
Proof. intros H1 H2 k Hk. rewrite (H2 k Hk). apply H1, Hk. Qed.

Lemma frozen_layout (st st' : Locals.t) :
  same_layout st st' -> frozen st -> frozen st'.
Proof. intros (_ & _ & E) H k. rewrite E. apply H. Qed.

Lemma agrees_backbone (args : Args.t) (st st' : Locals.t) :
  same_backbone st st' ->
  agrees_with_pretrained args (Locals.model st) ->
  agrees_with_pretrained args (Locals.model st').
Proof.
  intros Hb Ha k t Hk. destruct (Ha k t Hk) as [Hn Hg].
  split; [exact Hn|]. rewrite (Hb k Hn). exact Hg.
Qed.

Lemma trainable_frozen (st : Locals.t) (k : string) :
  frozen st -> trainable st k = true -> In k fc_keys.
Proof.
  intros Hf Ht. unfold trainable in Ht. apply andb_true_iff in Ht.
  apply Hf. exact (proj2 Ht).
Qed.

Lemma train_step_layout (training : bool) (st : Locals.t) images target :
  same_layout st (train_step training st images target).
Proof.
  unfold same_layout, train_step. simpl. rewrite map_map. repeat split.
Qed.

(** In evaluation mode with a frozen backbone a training step changes the
    classifier head only. *)
Lemma train_step_backbone (st : Locals.t) images target :
  frozen st -> same_backbone st (train_step false st images target).
Proof.
  intros Hf k Hk. unfold train_step. simpl.
  pose (g := fun (k' : string) (v : Tensor) =>
               if trainable st k'
               then sgd_parameter (Optimizer.lrs (Locals.optimizer st))
                                  (Optimizer.state (Locals.optimizer st))
                                  (Locals.model st) images target k' v
               else v).
  change (sd_get (map (fun kv => (fst kv, g (fst kv) (snd kv))) (Locals.model st)) k
          = sd_get (Locals.model st) k).
  rewrite sd_get_map_values. unfold g.
  destruct (trainable st k) eqn:E.
  - exfalso. apply Hk. apply (trainable_frozen st k Hf E).
  - destruct (sd_get (Locals.model st) k); reflexivity.
Qed.

Lemma train_step_bests (training : bool) (st : Locals.t) images target :
  Locals.best_val_acc (train_step training st images target) = Locals.best_val_acc st /\
  Locals.best_test_acc (train_step training st images target) = Locals.best_test_acc st.
Proof. split; reflexivity. Qed.

Lemma train_batch_post (args : Args.t) (rank epoch : Z) (training : bool)
    (st : Locals.t) (sb : Z * (Images * list Z)) (w : World) :
  post (train_batch args rank epoch training st sb) w
       (fun st' w' =>
          st' = train_step training st (fst (snd sb)) (snd (snd sb)) /\
          checkpoint_pth w' = checkpoint_pth w)
       (fun e w' => not_sanity_failure e /\ checkpoint_pth w' = checkpoint_pth w).
Proof.
  unfold train_batch, post.
  destruct (Args.print_freq args =? 0); simpl.
  { split; [intros k; discriminate|reflexivity]. }
  destruct (fst sb mod Args.print_freq args =? 0); simpl; [|split; reflexivity].
  destruct (rank =? 0); simpl; [|split; reflexivity].
  destruct (Optimizer.param_groups (Locals.optimizer st)) as [|g0 pg]; simpl.
  - split; [intros k; discriminate|reflexivity].
  - split; reflexivity.
Qed.

(** The training loop of one epoch. *)
Lemma train_loop_post (args : Args.t) (rank epoch : Z) (training : bool)
    (batches : list (Z * (Images * list Z))) (st : Locals.t) (w : World) :
  post (fold_M (train_batch args rank epoch training) batches st) w
       (fun st' w' =>
          same_layout st st' /\
          (training = false -> frozen st -> same_backbone st st') /\
          Locals.best_val_acc st' = Locals.best_val_acc st /\
          Locals.best_test_acc st' = Locals.best_test_acc st /\
          checkpoint_pth w' = checkpoint_pth w)
       (fun e w' => not_sanity_failure e /\ checkpoint_pth w' = checkpoint_pth w).
Proof.
  eapply post_weaken.
  - apply (post_fold_M _ batches
             (fun st' w' =>
                same_layout st st' /\
                (training = false -> frozen st -> same_backbone st st') /\
                Locals.best_val_acc st' = Locals.best_val_acc st /\
                Locals.best_test_acc st' = Locals.best_test_acc st /\
                checkpoint_pth w' = checkpoint_pth w)
             (fun e w' => not_sanity_failure e /\ checkpoint_pth w' = checkpoint_pth w)).
    + intros st1 sb w1 _ (Hl & Hb & Hv & Ht & Hc).
      eapply post_weaken; [apply train_batch_post| |].
      * intros st2 w2 [-> Hc2]. split; [|split; [|split; [|split]]].
        -- eapply same_layout_trans; [exact Hl|apply train_step_layout].
        -- intros -> Hf. eapply same_backbone_trans; [apply Hb; auto|].
           apply train_step_backbone. eapply frozen_layout; eassumption.
        -- exact Hv.
        -- exact Ht.
        -- congruence.
      * intros e w2 [He Hc2]. split; [exact He|congruence].
    + split; [apply same_layout_refl|]. split; [intros _ _; apply same_backbone_refl|].
      repeat split.
  - auto.
  - auto.
Qed.

(** The evaluation block: the model is left alone, the best accuracies are
    updated from four averages, and one line with them is printed. *)
Lemma evaluate_and_report_post (epoch : Z)
    (val_loader test_loader : list (Images * list Z)) (st : Locals.t) (w : World) :
  post (evaluate_and_report epoch val_loader test_loader st) w
       (fun st' w' =>
          Locals.model st' = Locals.model st /\
          Locals.optimizer st' = Locals.optimizer st /\
          Locals.scheduler st' = Locals.scheduler st /\
          Locals.requires_grad st' = Locals.requires_grad st /\
          checkpoint_pth w' = checkpoint_pth w /\
          exists val_top1 val_top5 test_top1 test_top5,
            (Locals.best_val_acc st', Locals.best_test_acc st') =
              update_best (Locals.best_val_acc st, Locals.best_test_acc st)
                          val_top1 val_top5 test_top1 test_top5 /\
            stdout w' = stdout w ++
              [EpochLine (epoch_stats epoch val_top1 val_top5 test_top1 test_top5
                                      (Locals.best_val_acc st') (Locals.best_test_acc st'))] /\
            stats_file w' = stats_file w ++
              [EpochLine (epoch_stats epoch val_top1 val_top5 test_top1 test_top5
                                      (Locals.best_val_acc st') (Locals.best_test_acc st'))])
       (fun e w' => not_sanity_failure e /\ w' = w).
Proof.
  unfold evaluate_and_report, post, bind, lift.
  pose proof (evaluate_raises (Locals.model st) "ValAcc@1" "ValAcc@5" val_loader) as Hv.
  destruct (evaluate (Locals.model st) "ValAcc@1" "ValAcc@5" val_loader)
    as [val|e]; [|split; [exact Hv|reflexivity]].
  pose proof (evaluate_raises (Locals.model st) "TestAcc@1" "TestAcc@5" test_loader) as Ht.
  destruct (evaluate (Locals.model st) "TestAcc@1" "TestAcc@5" test_loader)
    as [test|e]; [|split; [exact Ht|reflexivity]].
  simpl. repeat (split; [reflexivity|]).
  exists (AverageMeter.avg (fst val)), (AverageMeter.avg (snd val)),
         (AverageMeter.avg (fst test)), (AverageMeter.avg (snd test)).
  split; [symmetry; apply surjective_pairing|]. split; reflexivity.
Qed.

Lemma set_lrs_params (gs : list ParamGroup.t) (ls : list Q) :
  map ParamGroup.params (Optimizer.set_lrs gs ls) = map ParamGroup.params gs.
Proof.
  revert ls. induction gs as [|g gs IH]; intros [|l ls]; simpl; try reflexivity.
  rewrite IH. reflexivity.
Qed.

Lemma step_scheduler_layout (st : Locals.t) : same_layout st (step_scheduler st).
Proof.
  unfold same_layout, step_scheduler. simpl. rewrite set_lrs_params. repeat split.
Qed.

(** *** One epoch *)

Lemma finish_epoch_post (args : Args.t) (rank epoch : Z) (st : Locals.t) (w : World) :
  post (finish_epoch args rank epoch st) w
       (fun st' w' =>
          st' = step_scheduler st /\
          stdout w' = stdout w /\
          checkpoint_pth w' =
            (if rank =? 0 then Some (checkpoint_of epoch st') else checkpoint_pth w))
       (fun e w' =>
          w' = w /\
          (Args.weights args = "freeze" ->
           agrees_with_pretrained args (Locals.model st) -> not_sanity_failure e)).
Proof.
  unfold finish_epoch. apply post_bind.
  assert (Hrest : post
            (let st0 := step_scheduler st in
             bind (if rank =? 0 then torch_save (checkpoint_of epoch st0) else ret tt)
                  (fun _ => ret st0)) w
            (fun st' w' =>
               st' = step_scheduler st /\ stdout w' = stdout w /\
               checkpoint_pth w' =
                 (if rank =? 0 then Some (checkpoint_of epoch st') else checkpoint_pth w))
            (fun e w' =>
               w' = w /\
               (Args.weights args = "freeze" ->
                agrees_with_pretrained args (Locals.model st) -> not_sanity_failure e))).
  { unfold post, bind, torch_save, modify, ret. simpl.
    destruct (rank =? 0); simpl; repeat split. }
  destruct (decide (Args.weights args = "freeze")) as [Hw|Hw].
  - apply post_lift.
    destruct (sanity_check (Args.pretrained args) (Locals.model st)) as [[]|e] eqn:E.
    + exact Hrest.
    + split; [reflexivity|]. intros _ Ha.
      rewrite sanity_check_passes in E; [discriminate|].
      intros k t Hk. apply (Ha k t Hk).
  - apply post_ret. exact Hrest.
Qed.

Lemma epoch_body_post (args : Args.t) (rank : Z)
    (train_loader : Z -> list (Images * list Z))
    (val_loader test_loader : list (Images * list Z))
    (st : Locals.t) (epoch : Z) (w : World) :
  post (epoch_body args rank train_loader val_loader test_loader st epoch) w
       (fun st' w' =>
          same_layout st st' /\
          checkpoint_pth w' =
            (if rank =? 0 then Some (checkpoint_of epoch st') else checkpoint_pth w) /\
          (Args.weights args = "freeze" -> frozen st -> same_backbone st st'))
       (fun e w' =>
          checkpoint_pth w' = checkpoint_pth w /\
          (Args.weights args = "freeze" -> frozen st ->
           agrees_with_pretrained args (Locals.model st) -> not_sanity_failure e)).
Proof.
  unfold epoch_body. apply post_bind.
  assert (Hrest : forall training,
            (Args.weights args = "freeze" -> training = false) ->
            post (bind (fold_M (train_batch args rank epoch training)
                               (enumerate (train_loader epoch)
                                          (epoch * len (train_loader epoch))) st)
                       (fun st0 =>
                          bind (if rank =? 0
                                then evaluate_and_report epoch val_loader test_loader st0
                                else ret st0)
                               (fun st1 => finish_epoch args rank epoch st1))) w
                 (fun st' w' =>
                    same_layout st st' /\
                    checkpoint_pth w' =
                      (if rank =? 0 then Some (checkpoint_of epoch st')
                       else checkpoint_pth w) /\
                    (Args.weights args = "freeze" -> frozen st -> same_backbone st st'))
                 (fun e w' =>
                    checkpoint_pth w' = checkpoint_pth w /\
                    (Args.weights args = "freeze" -> frozen st ->
                     agrees_with_pretrained args (Locals.model st) ->
                     not_sanity_failure e))).
  { intros training Hmode. apply post_bind.
    eapply post_weaken; [apply train_loop_post| |].
    2: { intros e w1 [He Hc]. split; [exact Hc|]. intros _ _ _. exact He. }
    intros st1 w1 (Hl1 & Hb1 & _ & _ & Hc1). apply post_bind.
    assert (Hfin : forall st2 w2,
              Locals.model st2 = Locals.model st1 ->
              Locals.optimizer st2 = Locals.optimizer st1 ->
              Locals.requires_grad st2 = Locals.requires_grad st1 ->
              checkpoint_pth w2 = checkpoint_pth w1 ->
              post (finish_epoch args rank epoch st2) w2
                   (fun st' w' =>
                      same_layout st st' /\
                      checkpoint_pth w' =
                        (if rank =? 0 then Some (checkpoint_of epoch st')
                         else checkpoint_pth w) /\
                      (Args.weights args = "freeze" -> frozen st -> same_backbone st st'))
                   (fun e w' =>
                      checkpoint_pth w' = checkpoint_pth w /\
                      (Args.weights args = "freeze" -> frozen st ->
                       agrees_with_pretrained args (Locals.model st) ->
                       not_sanity_failure e))).
    { intros st2 w2 Hm Ho Hr Hc2.
      assert (Hl2 : same_layout st1 st2).
      { unfold same_layout. rewrite Hm, Ho, Hr. repeat split. }
      assert (Hb2 : Args.weights args = "freeze" -> frozen st -> same_backbone st st2).
      { intros Hw Hf k Hk. rewrite Hm. apply Hb1; auto. }
      eapply post_weaken; [apply finish_epoch_post| |].
      - intros st3 w3 (-> & _ & Hc3). split; [|split].
        + eapply same_layout_trans; [exact Hl1|].
          eapply same_layout_trans; [exact Hl2|apply step_scheduler_layout].
        + rewrite Hc3. destruct (rank =? 0); [reflexivity|congruence].
        + intros Hw Hf. exact (Hb2 Hw Hf).
      - intros e w3 [-> Hs]. split; [congruence|].
        intros Hw Hf Ha. apply Hs; [exact Hw|].
        eapply (agrees_backbone args st st2); [apply Hb2; assumption|exact Ha]. }
    destruct (rank =? 0) eqn:Hrank.
    - eapply post_weaken; [apply evaluate_and_report_post| |].
      + intros st2 w2 (Hm & Ho & _ & Hr & Hc2 & _).
        apply Hfin; [exact Hm|exact Ho|exact Hr|exact Hc2].
      + intros e w2 [He ->]. split; [exact Hc1|]. intros _ _ _. exact He.
    - apply post_ret. apply Hfin; reflexivity. }
  unfold set_mode.
  destruct (decide (Args.weights args = "finetune")) as [Hft|Hft].
  - apply post_ret. apply Hrest. intros Hw. rewrite Hw in Hft. discriminate.
  - destruct (decide (Args.weights args = "freeze")) as [Hfz|Hfz].
    + apply post_ret. apply Hrest. reflexivity.
    + apply post_raise. split; [reflexivity|]. intros Hw. contradiction.
Qed.

(** *** The loop over the epochs *)

Lemma run_epochs_post (args : Args.t) (rank : Z)
    (train_loader : Z -> list (Images * list Z))
    (val_loader test_loader : list (Images * list Z))
    (start_epoch : Z) (st : Locals.t) (w : World) :
  post (run_epochs args rank train_loader val_loader test_loader start_epoch st) w
       (fun st' w' =>
          same_layout st st' /\
          (Args.weights args = "freeze" -> frozen st -> same_backbone st st'))
       (fun e w' =>
          Args.weights args = "freeze" -> frozen st ->
          agrees_with_pretrained args (Locals.model st) -> not_sanity_failure e).
Proof.
  unfold run_epochs.
  apply (post_fold_M _ _
           (fun st' (w' : World) =>
              same_layout st st' /\
              (Args.weights args = "freeze" -> frozen st -> same_backbone st st'))).
  - intros st1 epoch w1 _ [Hl Hb].
    eapply post_weaken; [apply epoch_body_post| |].
    + intros st2 w2 (Hl2 & _ & Hb2). split.
      * eapply same_layout_trans; eassumption.
      * intros Hw Hf. eapply same_backbone_trans; [apply Hb; assumption|].
        apply Hb2; [exact Hw|]. eapply frozen_layout; eassumption.
    + intros e w2 [_ He] Hw Hf Ha. apply He; [exact Hw| |].
      * eapply frozen_layout; eassumption.
      * eapply agrees_backbone; [apply Hb; assumption|exact Ha].
  - split; [apply same_layout_refl|intros _ _; apply same_backbone_refl].
Qed.

(** *** Checkpoints *)

Lemma optimizer_load_state_dict_ok (o : Optimizer.t) (sd : list (nat * Q) * OptState) :
  map (fun g => length (ParamGroup.params g)) (Optimizer.param_groups o) = map fst (fst sd) ->
  exists o',
    Optimizer.load_state_dict o sd = Ok o' /\
    Optimizer.state_dict o' = sd /\
    map ParamGroup.params (Optimizer.param_groups o') =
      map ParamGroup.params (Optimizer.param_groups o).
Proof.
  intros H. unfold Optimizer.load_state_dict.
  destruct (decide (map (fun g => length (ParamGroup.params g)) (Optimizer.param_groups o)
                    = map fst (fst sd))) as [_|Hn]; [|contradiction].
  eexists. split; [reflexivity|].
  destruct sd as [groups state]. unfold Optimizer.state_dict. simpl in *.
  destruct o as [gs s]. simpl in *. clear s.
  revert groups H. induction gs as [|g gs IH]; intros [|[n l] groups] H; simpl in *;
    try discriminate.
  - split; reflexivity.
  - injection H as Hn Hrest. destruct (IH groups Hrest) as [E1 E2].
    injection E1 as E1. split; [|rewrite E2; reflexivity].
    rewrite E1, Hn. reflexivity.
Qed.

Lemma optimizer_load_state_dict_raises (o : Optimizer.t) (sd : list (nat * Q) * OptState) :
  raises not_sanity_failure (Optimizer.load_state_dict o sd).
Proof.
  unfold Optimizer.load_state_dict.
  destruct (decide _); simpl; [exact I|intros k; discriminate].
Qed.

Lemma optimizer_load_state_dict_layout (o o' : Optimizer.t) (sd : list (nat * Q) * OptState) :
  Optimizer.load_state_dict o sd = Ok o' ->
  map ParamGroup.params (Optimizer.param_groups o') =
    map ParamGroup.params (Optimizer.param_groups o).
Proof.
  unfold Optimizer.load_state_dict.
  destruct (decide _) as [E|_]; [|discriminate].
  intros H. destruct (optimizer_load_state_dict_ok o sd E) as (o2 & H2 & _ & Hl).
  unfold Optimizer.load_state_dict in H2.
  destruct (decide _); [|discriminate]. congruence.
Qed.

(** A strict load that succeeds has replaced every tensor. *)
Lemma load_state_dict_strict_inv (model sd model' : list (string * Tensor)) :
  load_state_dict_strict model sd = Ok model' ->
  map fst model' = map fst model /\ forall k, sd_get model' k = sd_get sd k.
Proof.
  intros H.
  assert (Hkeys : forall k, In k (map fst model) <-> In k (map fst sd)).
  { unfold load_state_dict_strict in H.
    destruct (load_state_dict model (map fst sd) (sd_get sd))
      as [m [missing unexpected]] eqn:E.
    destruct missing; [|discriminate]. destruct unexpected; [|discriminate].
    intros k. split; intros Hk.
    - destruct (sd_get sd k) eqn:Hg; [apply sd_get_is_Some; eauto|].
      assert (Hin : In k (fst (snd (load_state_dict model (map fst sd) (sd_get sd)))))
        by (apply load_missing_spec; split; assumption).
      rewrite E in Hin. destruct Hin.
    - revert k Hk. apply load_unexpected_nil with (get := sd_get sd).
      rewrite E. reflexivity. }
  destruct (load_state_dict_strict_ok model sd Hkeys) as (m & Hm & Hk & Hg).
  rewrite Hm in H. injection H as <-. split; assumption.
Qed.

Lemma load_state_dict_strict_raises (model sd : list (string * Tensor)) :
  raises not_sanity_failure (load_state_dict_strict model sd).
Proof.
  unfold load_state_dict_strict.
  destruct (load_state_dict model (map fst sd) (sd_get sd)) as [m [[|? ?] [|? ?]]];
    simpl; try exact I; intros k; discriminate.
Qed.

Lemma resume_no_checkpoint (st : Locals.t) (w : World) :
  checkpoint_pth w = None ->
  resume st w =
  (Ok (0, {| Locals.model := Locals.model st;
             Locals.requires_grad := Locals.requires_grad st;
             Locals.optimizer := Locals.optimizer st;
             Locals.scheduler := Locals.scheduler st;
             Locals.best_val_acc := {| top1 := 0; top5 := 0 |};
             Locals.best_test_acc := {| top1 := 0; top5 := 0 |} |}), w).
Proof. intros H. unfold resume, bind, get. rewrite H. reflexivity. Qed.

Lemma resume_loadable (st : Locals.t) (w : World) (ckpt : Ckpt.t) :
  checkpoint_pth w = Some ckpt -> loadable st ckpt ->
  exists st',
    resume st w = (Ok (Ckpt.epoch ckpt, st'), w) /\
    restored_from ckpt st' /\ same_layout st st'.
Proof.
  intros Hc [Hkeys Hgroups]. unfold resume, bind, get, lift. rewrite Hc.
  destruct (load_state_dict_strict_ok (Locals.model st) (Ckpt.model ckpt) Hkeys)
    as (m & Hm & Hmk & Hmg).
  destruct (optimizer_load_state_dict_ok (Locals.optimizer st) (Ckpt.optimizer ckpt) Hgroups)
    as (o & Ho & Hos & Hol).
  rewrite Hm, Ho. eexists. split; [reflexivity|]. split.
  - repeat split; simpl; auto.
  - repeat split; simpl; auto.
Qed.

(** Whatever the checkpoint, [resume] touches nothing outside the worker,
    keeps the layout of the locals, and on success holds the tensors of the
    checkpoint if there is one. *)
Lemma resume_post (st : Locals.t) (w : World) :
  post (resume st) w
       (fun r w' =>
          w' = w /\ same_layout st (snd r) /\
          match checkpoint_pth w with
          | None => fst r = 0 /\ Locals.model (snd r) = Locals.model st
          | Some ckpt =>
              fst r = Ckpt.epoch ckpt /\
              forall k, sd_get (Locals.model (snd r)) k = sd_get (Ckpt.model ckpt) k
          end)
       (fun e w' => w' = w /\ not_sanity_failure e).
Proof.
  unfold post. destruct (checkpoint_pth w) as [ckpt|] eqn:Hc.
  - unfold resume, bind, get, lift. rewrite Hc.
    pose proof (load_state_dict_strict_raises (Locals.model st) (Ckpt.model ckpt)) as Hr.
    destruct (load_state_dict_strict (Locals.model st) (Ckpt.model ckpt)) as [m|e] eqn:Em;
      [|split; [reflexivity|exact Hr]].
    pose proof (optimizer_load_state_dict_raises (Locals.optimizer st) (Ckpt.optimizer ckpt)) as Hr2.
    destruct (Optimizer.load_state_dict (Locals.optimizer st) (Ckpt.optimizer ckpt))
      as [o|e] eqn:Eo; [|split; [reflexivity|exact Hr2]].
    apply load_state_dict_strict_inv in Em. destruct Em as [Hk Hg].
    apply optimizer_load_state_dict_layout in Eo.
    simpl. repeat split; simpl; auto.
  - rewrite (resume_no_checkpoint st w Hc). simpl.
    repeat split.
Qed.

Lemma resume_depends_on_checkpoint (st : Locals.t) (w1 w2 : World) :
  checkpoint_pth w1 = checkpoint_pth w2 -> fst (resume st w1) = fst (resume st w2).
Proof.
  intros H. unfold resume, bind, get, lift. rewrite H.
  destruct (checkpoint_pth w2) as [ckpt|]; [|reflexivity].
  destruct (load_state_dict_strict (Locals.model st) (Ckpt.model ckpt)); [|reflexivity].
  destruct (Optimizer.load_state_dict (Locals.optimizer st) (Ckpt.optimizer ckpt));
    reflexivity.
Qed.


Lemma py_range2_nil (a b : Z) : b <= a -> py_range2 a b = [].
Proof.
  intros H. unfold py_range2. replace (Z.to_nat (b - a)) with 0%nat by lia. reflexivity.
Qed.

(** *** Resuming from the checkpoint *)

Lemma checkpoint_of_loadable (st0 st' : Locals.t) (epoch : Z) :
  same_layout st0 st' -> loadable st0 (checkpoint_of epoch st').
Proof.
  intros (Hk & Hg & _). split.
  - intros k. simpl. rewrite Hk. reflexivity.
  - simpl. rewrite !map_map. simpl.
    rewrite <- (map_map ParamGroup.params (@length string)
                        (Optimizer.param_groups (Locals.optimizer st0))).
    rewrite <- (map_map ParamGroup.params (@length string)
                        (Optimizer.param_groups (Locals.optimizer st'))).
    rewrite Hg. reflexivity.
Qed.


(** *** The frozen backbone *)

Lemma setup_cases (args : Args.t) :
  (matches_except_head args /\
   exists st, setup args = Ok st /\
              agrees_with_pretrained args (Locals.model st) /\
              Locals.requires_grad st = requires_grad_of args) \/
  (~ matches_except_head args /\ setup args = Raise (AssertionError None)).
Proof.
  destruct (build_model_cases args) as [[Hm _]|[Hn Hr]].
  - left. split; [exact Hm|].
    destruct (build_model_ok args Hm) as (model & wt & b & H1 & _ & _ & _ & _ & _ & H6).
    unfold setup. rewrite H1. simpl. eexists. split; [reflexivity|].
    split; [exact H6|reflexivity].
  - right. split; [exact Hn|]. unfold setup. rewrite Hr. reflexivity.
Qed.

Lemma requires_grad_of_frozen (args : Args.t) (st : Locals.t) :
  Args.weights args = "freeze" ->
  Locals.requires_grad st = requires_grad_of args -> frozen st.
Proof.
  intros Hw E k. rewrite E. unfold requires_grad_of.
  destruct (decide (Args.weights args = "freeze")); [|contradiction].
  intros H. apply bool_decide_eq_true in H. apply list_elem_of_In. exact H.
Qed.

Lemma set_mode_freeze (args : Args.t) (w : World) :
  Args.weights args = "freeze" -> set_mode args w = (Ok false, w).
Proof.
  intros H. unfold set_mode. rewrite H.
  destruct (decide ("freeze" = "finetune")) as [E|_]; [discriminate|].
  destruct (decide ("freeze" = "freeze")) as [_|E]; [reflexivity|contradiction].
Qed.

(** C6, amended.  With [--weights freeze], and with no checkpoint in the
    directory or one whose model holds the pretrained tensors, every epoch
    trains in evaluation mode and the sanity check never fails; when
    [main_worker] ends, gradients are enabled for [fc.weight] and [fc.bias]
    only, every tensor outside the classifier head is the one the epoch loop
    started with, and every pretrained tensor is still in the model. *)
Theorem frozen_run_keeps_pretrained (gpu : Z) (args : Args.t) (w : World)
    (Hfreeze : Args.weights args = "freeze")
    (Hckpt : match checkpoint_pth w with
             | None => True
             | Some ckpt => forall k t, Args.pretrained args !! k = Some t ->
                                        sd_get (Ckpt.model ckpt) k = Some t
             end) :
  (forall w0, set_mode args w0 = (Ok false, w0)) /\
  match fst (main_worker gpu args w) with
  | Ok st' =>
      (forall k, Locals.requires_grad st' k = true <-> In k fc_keys) /\
      (exists start_epoch st0,
         start_of_loop args w = Ok (start_epoch, st0) /\ same_backbone st0 st') /\
      (forall k t, Args.pretrained args !! k = Some t ->
                   sd_get (Locals.model st') k = Some t)
  | Raise e => not_sanity_failure e
  end.
Proof.
  split; [intros w0; apply set_mode_freeze; exact Hfreeze|].
  assert (Hmain : forall w1, checkpoint_pth w1 = checkpoint_pth w ->
            post (bind (lift (setup args))
                       (fun st =>
                          bind (resume st)
                               (fun r =>
                                  bind (if Args.world_size args =? 0
                                        then raise ZeroDivisionError else ret tt)
                                       (fun _ =>
                                          run_epochs args (Args.rank args + gpu)
                                            (train_batches (Args.dataset args)
                                               (fst (split_train_val shuffle
                                                       (Args.train_percent args)
                                                       (train_dataset_len (Args.dataset args))))
                                               (Args.batch_size args / Args.world_size args)
                                               (Args.rank args + gpu))
                                            (val_batches (Args.dataset args)
                                               (snd (split_train_val shuffle
                                                       (Args.train_percent args)
                                                       (train_dataset_len (Args.dataset args))))
                                               (Args.batch_size args / Args.world_size args))
                                            (test_batches (Args.dataset args)
                                               (Args.batch_size args / Args.world_size args))
                                            (fst r) (snd r))))) w1
                 (fun st' _ =>
                    (forall k, Locals.requires_grad st' k = true <-> In k fc_keys) /\
                    (exists start_epoch st0,
                       start_of_loop args w = Ok (start_epoch, st0) /\
                       same_backbone st0 st') /\
                    (forall k t, Args.pretrained args !! k = Some t ->
                                 sd_get (Locals.model st') k = Some t))
                 (fun e _ => not_sanity_failure e)).
  { intros w1 Hw1. apply post_bind, post_lift.
    destruct (setup_cases args) as [(_ & st & Hs & Ha & Hrg)|[_ Hs]]; rewrite Hs.
    2: { intros k. discriminate. }
    apply post_bind.
    pose proof (resume_post st w1) as Hr. unfold post in Hr |- *.
    pose proof (resume_depends_on_checkpoint st w1 w Hw1) as Hsame.
    destruct (resume st w1) as [[[start_epoch st0]|e] w2]; simpl in Hsame;
      [|exact (proj2 Hr)].
    destruct Hr as (-> & Hl0 & Hm0). simpl in Hl0, Hm0.
    assert (Hstart : start_of_loop args w = Ok (start_epoch, st0)).
    { unfold start_of_loop. rewrite Hs. symmetry. exact Hsame. }
    assert (Hf0 : frozen st0).
    { apply (requires_grad_of_frozen args); [exact Hfreeze|].
      destruct Hl0 as (_ & _ & E). rewrite E. exact Hrg. }
    assert (Ha0 : agrees_with_pretrained args (Locals.model st0)).
    { rewrite Hw1 in Hm0. destruct (checkpoint_pth w) as [ckpt|].
      - intros k t Hk. split; [apply (Ha k t Hk)|].
        destruct Hm0 as [_ Hm0]. rewrite Hm0. apply Hckpt. exact Hk.
      - destruct Hm0 as [_ Hm0]. rewrite Hm0. exact Ha. }
    change (post (bind (if Args.world_size args =? 0
                        then raise ZeroDivisionError else ret tt)
                       (fun _ => run_epochs args (Args.rank args + gpu)
                                   (train_batches (Args.dataset args)
                                      (fst (split_train_val shuffle (Args.train_percent args)
                                              (train_dataset_len (Args.dataset args))))
                                      (Args.batch_size args / Args.world_size args)
                                      (Args.rank args + gpu))
                                   (val_batches (Args.dataset args)
                                      (snd (split_train_val shuffle (Args.train_percent args)
                                              (train_dataset_len (Args.dataset args))))
                                      (Args.batch_size args / Args.world_size args))
                                   (test_batches (Args.dataset args)
                                      (Args.batch_size args / Args.world_size args))
                                   start_epoch st0)) w1
                 (fun st' _ =>
                    (forall k, Locals.requires_grad st' k = true <-> In k fc_keys) /\
                    (exists start_epoch st0,
                       start_of_loop args w = Ok (start_epoch, st0) /\
                       same_backbone st0 st') /\
                    (forall k t, Args.pretrained args !! k = Some t ->
                                 sd_get (Locals.model st') k = Some t))
                 (fun e _ => not_sanity_failure e)).
    apply post_bind.
    destruct (Args.world_size args =? 0).
    { apply post_raise. intros k. discriminate. }
    apply post_ret.
    eapply post_weaken; [apply run_epochs_post| |].
    - intros st' w3 [Hl Hb]. specialize (Hb Hfreeze Hf0). split; [|split].
      + intros k. destruct Hl as (_ & _ & E). rewrite E.
        destruct Hl0 as (_ & _ & E0). rewrite E0, Hrg. unfold requires_grad_of.
        destruct (decide (Args.weights args = "freeze")); [|contradiction].
        rewrite bool_decide_eq_true. apply list_elem_of_In.
      + exists start_epoch, st0. split; assumption.
      + intros k t Hk.
        apply (agrees_backbone args st0 st' Hb Ha0 k t Hk).
    - intros e w3 He. apply He; assumption. }
  unfold main_worker.
  set (rest := bind (lift (setup args)) _) in *.
  unfold bind at 1.
  destruct (Args.rank args + gpu =? 0) eqn:Hrank.
  - unfold print_both, modify.
    specialize (Hmain {| stdout := stdout w ++ [ArgvLine (Args.argv args)];
                         stats_file := stats_file w ++ [ArgvLine (Args.argv args)];
                         checkpoint_pth := checkpoint_pth w |} eq_refl).
    unfold post in Hmain.
    destruct (rest _) as [[st'|e] w']; exact Hmain.
  - unfold ret. specialize (Hmain w eq_refl). unfold post in Hmain.
    destruct (rest w) as [[st'|e] w']; exact Hmain.
Qed.

(** *** The best accuracies along the loop *)

(** On rank 0 an epoch updates the best accuracies with [update_best] from
    the four averages it measured, and its last line of output is the record
    built from them. *)
Lemma epoch_body_bests (args : Args.t)
    (train_loader : Z -> list (Images * list Z))
    (val_loader test_loader : list (Images * list Z))
    (st : Locals.t) (epoch : Z) (w : World) :
  post (epoch_body args 0 train_loader val_loader test_loader st epoch) w
       (fun st' w' =>
          exists a pre,
            (Locals.best_val_acc st', Locals.best_test_acc st') =
              update_best (Locals.best_val_acc st, Locals.best_test_acc st)
                          (EpochAcc.val_top1 a) (EpochAcc.val_top5 a)
                          (EpochAcc.test_top1 a) (EpochAcc.test_top5 a) /\
            stdout w' = pre ++
              [EpochLine (epoch_stats epoch
                            (EpochAcc.val_top1 a) (EpochAcc.val_top5 a)
                            (EpochAcc.test_top1 a) (EpochAcc.test_top5 a)
                            (Locals.best_val_acc st') (Locals.best_test_acc st'))])
       (fun _ _ => True).
Proof.
  unfold epoch_body. apply post_bind.
  unfold set_mode.
  assert (Hrest : forall training,
            post (bind (fold_M (train_batch args 0 epoch training)
                               (enumerate (train_loader epoch)
                                          (epoch * len (train_loader epoch))) st)
                       (fun st0 =>
                          bind (evaluate_and_report epoch val_loader test_loader st0)
                               (fun st1 => finish_epoch args 0 epoch st1))) w
                 (fun st' w' =>
                    exists a pre,
                      (Locals.best_val_acc st', Locals.best_test_acc st') =
                        update_best (Locals.best_val_acc st, Locals.best_test_acc st)
                                    (EpochAcc.val_top1 a) (EpochAcc.val_top5 a)
                                    (EpochAcc.test_top1 a) (EpochAcc.test_top5 a) /\
                      stdout w' = pre ++
                        [EpochLine (epoch_stats epoch
                                      (EpochAcc.val_top1 a) (EpochAcc.val_top5 a)
                                      (EpochAcc.test_top1 a) (EpochAcc.test_top5 a)
                                      (Locals.best_val_acc st') (Locals.best_test_acc st'))])
                 (fun _ _ => True)).
  { intros training. apply post_bind.
    eapply post_weaken; [apply train_loop_post| |auto].
    intros st1 w1 (_ & _ & Hv & Ht & _). apply post_bind.
    eapply post_weaken; [apply evaluate_and_report_post| |auto].
    intros st2 w2 (_ & _ & _ & _ & _ & v1 & v5 & t1 & t5 & Hb & Hout & _).
    eapply post_weaken; [apply finish_epoch_post| |auto].
    intros st3 w3 (-> & Hout3 & _).
    exists {| EpochAcc.val_top1 := v1; EpochAcc.val_top5 := v5;
              EpochAcc.test_top1 := t1; EpochAcc.test_top5 := t5 |}, (stdout w1).
    simpl. rewrite <- Hv, <- Ht. split; [exact Hb|]. congruence. }
  destruct (decide (Args.weights args = "finetune")).
  - apply post_ret. apply Hrest.
  - destruct (decide (Args.weights args = "freeze")).
    + apply post_ret. apply Hrest.
    + apply post_raise. exact I.
Qed.

(** The loop iterates [update_best]: its final best accuracies are those of
    [best_after] on the averages of the epochs it ran. *)
Lemma run_epochs_best_after (args : Args.t)
    (train_loader : Z -> list (Images * list Z))
    (val_loader test_loader : list (Images * list Z))
    (start_epoch : Z) (st : Locals.t) (w : World) :
  post (run_epochs args 0 train_loader val_loader test_loader start_epoch st) w
       (fun st' _ =>
          exists accs,
            (Locals.best_val_acc st', Locals.best_test_acc st') =
              best_after (Locals.best_val_acc st, Locals.best_test_acc st) accs)
       (fun _ _ => True).
Proof.
  unfold run_epochs.
  apply (post_fold_M _ _
           (fun st' (_ : World) =>
              exists accs,
                (Locals.best_val_acc st', Locals.best_test_acc st') =
                  best_after (Locals.best_val_acc st, Locals.best_test_acc st) accs)).
  - intros st1 epoch w1 _ [accs Hacc].
    eapply post_weaken; [apply epoch_body_bests| |auto].
    intros st2 w2 (a & pre & Hb & _). exists (accs ++ [a]).
    unfold best_after in *. rewrite fold_left_app. simpl. rewrite <- Hacc. exact Hb.
  - exists []. reflexivity.
Qed.
End EpochFacts.

(** ** The best accuracies *)







(** ** The script on the small instance *)

Example toy_setup : setup (toy_args "freeze" 2) = Ok toy_locals.
Proof. vm_compute. reflexivity. Qed.


(** C6, as stated, fails: a frozen run that finds the checkpoint of a frozen
    run on another pretrained file loads that backbone, and the sanity check
    at the end of its first epoch raises. *)
Lemma frozen_run_on_stale_checkpoint_fails :
  Args.weights (toy_args "freeze" 1) = "freeze" /\
  build_model (toy_args "freeze" 1)
    = Ok [("conv1.weight", 10); ("bn1.running_mean", 20); ("fc.weight", 7); ("fc.bias", 0)] /\
  fst (main_worker (F := toy_framework) 0 (toy_args "freeze" 1) stale_world)
    = Raise (AssertionError (Some "conv1.weight")).
Proof.
  split; [reflexivity|]. split; vm_compute; reflexivity.
Qed.

Lemma frozen_run_keeps_pretrained_witness :
  exists st',
    fst (main_worker (F := toy_framework) 0 (toy_args "freeze" 2) empty_world) = Ok st' /\
    forall k t, toy_pretrained !! k = Some t -> sd_get (Locals.model st') k = Some t.
Proof.
  destruct (frozen_run_keeps_pretrained (F := toy_framework) 0
              (toy_args "freeze" 2) empty_world eq_refl I) as [_ H].
  destruct (fst (main_worker (F := toy_framework) 0 (toy_args "freeze" 2) empty_world))
    as [st'|e] eqn:E; [|vm_compute in E; discriminate].
  exists st'. split; [reflexivity|]. exact (proj2 (proj2 H)).
Defined.

(** C4, on a first epoch with validation top-5 accuracy 100 and test top-5
    accuracy 50: the record rank 0 prints and appends to [stats.txt] has
    [val_acc5 = 100], and [best_val_acc.top5] is 100, yet its field
    [best_val_acc5] is 50, the value of [best_test_acc.top5]. *)
Theorem epoch_record_best_val_acc5_is_test_top5 :
  exists st w' step stats,
    main_worker (F := toy_framework) 0 (toy_args "freeze" 1) empty_world = (Ok st, w') /\
    stdout w' = [ArgvLine "evaluate_cifar.py model.pth"; StepLine step; EpochLine stats] /\
    stats_file w' = stdout w' /\
    (EpochStats.val_acc5 stats == 100)%Q /\
    (top5 (Locals.best_val_acc st) == 100)%Q /\
    (EpochStats.best_val_acc5 stats == 50)%Q /\
    EpochStats.best_val_acc5 stats = top5 (Locals.best_test_acc st).
Proof.
  destruct (main_worker (F := toy_framework) 0 (toy_args "freeze" 1) empty_world)
    as [[st|e] w'] eqn:E; [|vm_compute in E; discriminate].
  vm_compute in E. injection E as <- <-.
  do 4 eexists. split; [reflexivity|]. split; [reflexivity|].
  split; [reflexivity|]. split; [reflexivity|]. split; [reflexivity|].
  split; reflexivity.
Qed.

(** Whatever the run, the field is filled from [best_test_acc]. *)
Lemma epoch_stats_best_val_acc5 (epoch : Z) (v1 v5 t1 t5 : Q) (best_val best_test : Namespace) :
  EpochStats.best_val_acc5 (epoch_stats epoch v1 v5 t1 t5 best_val best_test)
  = top5 best_test /\
  EpochStats.best_val_acc1 (epoch_stats epoch v1 v5 t1 t5 best_val best_test)
  = top1 best_val.
Proof. split; reflexivity. Qed.

(** ** More on accuracy *)

Lemma filter_length_le {A} (p q : A -> bool) (l : list A) :
  (forall x, In x l -> p x = true -> q x = true) ->
  (length (List.filter p l) <= length (List.filter q l))%nat.
Proof.
  induction l as [|x l IH]; intros H; simpl; [lia|].
  assert (IH' : (length (List.filter p l) <= length (List.filter q l))%nat).
  { apply IH. intros y Hy. apply H. right. exact Hy. }
  destruct (p x) eqn:Ep.
  - rewrite (H x (or_introl eq_refl) Ep). simpl. lia.
  - destruct (q x); simpl; lia.
Qed.



Lemma in_topk_mono (k1 k2 : Z) (row : list Q) (t : Z) :
  k1 <= k2 -> in_topk k1 row t = true -> in_topk k2 row t = true.
Proof.
  unfold in_topk. rewrite !andb_true_iff, !Z.ltb_lt. intros Hk [H1 H2].
  split; [exact H1|lia].
Qed.

Lemma topk_hits_mono (k1 k2 : Z) (output : list (list Q)) (target : list Z) :
  k1 <= k2 -> topk_hits k1 output target <= topk_hits k2 output target.
Proof.
  intros Hk. unfold topk_hits, len. apply inj_le. apply filter_length_le.
  intros rt _. apply in_topk_mono. exact Hk.
Qed.


Lemma percentage_mono (h1 h2 n : Z) :
  h1 <= h2 -> 1 <= n ->
  (inject_Z h1 * (100 / inject_Z n) <= inject_Z h2 * (100 / inject_Z n))%Q.
Proof.
  intros Hh Hn.
  assert (Hn0 : (0 < inject_Z n)%Q) by (unfold Qlt; simpl; lia).
  assert (Hc : (0 <= 100 / inject_Z n)%Q).
  { apply Qle_shift_div_l; [exact Hn0|]. lra. }
  apply Qmult_le_compat_r; [|exact Hc]. rewrite <- Zle_Qle. exact Hh.
Qed.



(** X2. A larger [k] never gives a smaller accuracy: for [topk = (k1, k2)]
    with [k1 <= k2] the first value is at most the second. *)
Theorem accuracy_monotone_in_k (output : list (list Q)) (target : list Z) (k1 k2 : Z)
    (Hk1 : 0 <= k1) (Hk : k1 <= k2)
    (Hcls : List.Forall (fun row => k2 <= len row) output)
    (Hlen : length target = length output)
    (Hbatch : 1 <= len target) :
  exists x1 x2,
    accuracy output target [k1; k2] = Ok [[x1]; [x2]] /\ (x1 <= x2)%Q.
Proof.
  assert (E : accuracy output target [k1; k2] =
              Ok (map (fun k => [(inject_Z (topk_hits k output target)
                                  * (100 / inject_Z (len target)))%Q]) [k1; k2])).
  { apply accuracy_computes; try assumption.
    - discriminate.
    - repeat constructor; lia.
    - eapply List.Forall_impl; [|exact Hcls]. intros row Hrow. simpl in Hrow.
      apply List.Forall_cons; [lia|]. apply List.Forall_cons; [lia|].
      apply List.Forall_nil. }
  do 2 eexists. split; [exact E|].
  apply percentage_mono; [apply topk_hits_mono; exact Hk|exact Hbatch].
Qed.

Lemma accuracy_monotone_in_k_witness :
  exists x1 x2,
    accuracy example_scores example_labels [1; 5] = Ok [[x1]; [x2]] /\ (x1 <= x2)%Q.
Proof.
  apply (accuracy_monotone_in_k example_scores example_labels 1 5).
  - lia.
  - lia.
  - repeat constructor; vm_compute; discriminate.
  - reflexivity.
  - vm_compute. discriminate.
Defined.

(** *** When accuracy returns and what it raises *)

Lemma map_result_raise_first {A B} (f : A -> result B) (l : list A) (e : exn) :
  (forall x, In x l -> f x = Raise e \/ exists y, f x = Ok y) ->
  (exists x, In x l /\ f x = Raise e) ->
  map_result f l = Raise e.
Proof.
  induction l as [|x l IH]; intros Hall [x0 [Hin Hx0]]; [destruct Hin|]. simpl.
  destruct (Hall x (or_introl eq_refl)) as [Hx|[y Hx]]; rewrite Hx; [reflexivity|].
  destruct Hin as [->|Hin]; [congruence|].
  rewrite IH; [reflexivity| |eauto].
  intros z Hz. apply Hall. right. exact Hz.
Qed.

Lemma tensor_topk_cases (maxk : Z) (output : list (list Q)) :
  if forallb (fun row => (0 <=? maxk) && (maxk <=? len row)) output
  then exists pred, tensor_topk maxk output = Ok pred
  else tensor_topk maxk output = Raise RuntimeError.
Proof.
  unfold tensor_topk.
  assert (Hrow : forall row,
            topk_row maxk row =
            if (0 <=? maxk) && (maxk <=? len row)
            then Ok (map Z.of_nat (firstn (Z.to_nat maxk) (argsort_desc row)))
            else Raise RuntimeError).
  { intros row. unfold topk_row.
    destruct (Z.ltb_spec maxk 0), (Z.leb_spec 0 maxk); try lia; simpl; [reflexivity|].
    destruct (Z.ltb_spec (len row) maxk), (Z.leb_spec maxk (len row)); try lia; reflexivity. }
  destruct (forallb _ output) eqn:E.
  - eexists. apply map_result_ok with
      (g := fun row => map Z.of_nat (firstn (Z.to_nat maxk) (argsort_desc row))).
    intros row Hin. rewrite Hrow. rewrite forallb_forall in E. rewrite (E row Hin).
    reflexivity.
  - apply map_result_raise_first.
    + intros row _. rewrite Hrow. destruct (_ && _); eauto.
    + assert (Hex : exists row, In row output /\
                                (0 <=? maxk) && (maxk <=? len row) = false).
      { clear Hrow. induction output as [|row output IH]; [discriminate|].
        simpl in E. apply andb_false_iff in E. destruct E as [E|E].
        - exists row. split; [left; reflexivity|exact E].
        - destruct (IH E) as (r & Hr & Hf). exists r. split; [right; exact Hr|exact Hf]. }
      destruct Hex as (row & Hin & Hf). exists row. split; [exact Hin|].
      rewrite Hrow, Hf. reflexivity.
Qed.

(** X3. On a non-empty batch [accuracy] returns exactly when [topk] is not
    empty, its largest entry is between 0 and the number of classes of every
    row, and the target has one label per row or a single label.  An empty
    [topk] raises [ValueError] from [max]; every other failure is the
    [RuntimeError] of [topk] or of [expand_as]. *)
Theorem accuracy_returns_iff (output : list (list Q)) (target topk : list Z)
    (Hout : output <> []) :
  ((exists res, accuracy output target topk = Ok res /\ length res = length topk)
   <-> accuracy_defined output target topk = true) /\
  (accuracy_defined output target topk = false ->
   accuracy output target topk =
   Raise (match topk with [] => ValueError | _ => RuntimeError end)).
Proof.
  unfold accuracy, accuracy_defined.
  destruct topk as [|k0 ks].
  { simpl. split; [|reflexivity]. split; [intros (res & H & _); discriminate|discriminate]. }
  set (topk := k0 :: ks). set (maxk := fold_left Z.max ks k0).
  assert (Hmax : py_max_seq topk = Ok maxk) by reflexivity.
  rewrite Hmax. clearbody topk maxk. clear Hmax. cbn [rbind].
  pose proof (tensor_topk_cases maxk output) as Htopk.
  destruct (forallb _ output) eqn:Erows; simpl.
  2: { rewrite Htopk. simpl. split; [|reflexivity].
       split; [intros (res & H & _); discriminate|discriminate]. }
  destruct Htopk as [pred Hpred]. rewrite Hpred. cbn [rbind].
  unfold expand_as.
  destruct (length target =? length output)%nat eqn:Elen; simpl.
  - apply Nat.eqb_eq in Elen.
    assert (Hb : (len target =? 0) = false).
    { apply Z.eqb_neq. unfold len. rewrite Elen. destruct output; [contradiction|].
      simpl. lia. }
    split; [|discriminate]. split; [intros _; reflexivity|intros _].
    eexists. split.
    + apply map_result_ok with
        (g := fun k => [(count_true
                           (slice_to k (zip_with (zip_with Z.eqb)
                                          (transpose (Z.to_nat maxk) pred)
                                          (repeat target (Z.to_nat maxk))))
                         * (100 / inject_Z (len target)))%Q]).
      intros k _. rewrite Hb. reflexivity.
    + apply length_map.
  - destruct target as [|t [|t' target]]; simpl.
    + split; [|reflexivity]. split; [intros (res & H & _); discriminate|discriminate].
    + split; [|discriminate]. split; [intros _; reflexivity|intros _].
      eexists. split.
      * apply map_result_ok with
          (g := fun k => [(count_true
                             (slice_to k (zip_with (zip_with Z.eqb)
                                            (transpose (Z.to_nat maxk) pred)
                                            (repeat (repeat t (length output))
                                                    (Z.to_nat maxk))))
                           * (100 / inject_Z (len [t])))%Q]).
        intros k _. reflexivity.
      * apply length_map.
    + split; [|reflexivity]. split; [intros (res & H & _); discriminate|discriminate].
Qed.

Lemma accuracy_returns_iff_witness :
  accuracy example_scores example_labels [1; 6] = Raise RuntimeError /\
  accuracy example_scores [1; 2] [1; 5] = Raise RuntimeError /\
  accuracy example_scores example_labels [] = Raise ValueError.
Proof.
  split; [|split].
  - apply (accuracy_returns_iff example_scores example_labels [1; 6]);
      [discriminate|reflexivity].
  - apply (accuracy_returns_iff example_scores [1; 2] [1; 5]);
      [discriminate|reflexivity].
  - apply (accuracy_returns_iff example_scores example_labels []);
      [discriminate|reflexivity].
Defined.

(** *** A single label for a whole batch *)





(** *** Top-1 *)


Lemma is_first_max_spec (row : list Q) (t : Z) :
  is_first_max row t = true <->
  0 <= t < len row /\
  forall c, (c < length row)%nat ->
            (score row c <= score row (Z.to_nat t))%Q /\
            ((c < Z.to_nat t)%nat -> (score row c < score row (Z.to_nat t))%Q).
Proof.
  unfold is_first_max. rewrite !andb_true_iff, Z.leb_le, Z.ltb_lt, forallb_forall.
  split.
  - intros [[H0 H1] Hall]. split; [lia|]. intros c Hc.
    assert (Hn : ~ ranked_before row c (Z.to_nat t)).
    { rewrite <- beats_spec. apply not_true_iff_false, negb_true_iff.
      apply Hall. apply in_seq. lia. }
    unfold ranked_before in Hn. split.
    + apply Qnot_lt_le. intros Hlt. apply Hn. left. exact Hlt.
    + intros Hct. apply Qnot_le_lt. intros Hle. apply Hn.
      destruct (Qlt_le_dec (score row (Z.to_nat t)) (score row c)) as [Hlt|Hle2];
        [left; exact Hlt|right; split; [lra|exact Hct]].
  - intros [Ht Hall]. split; [split; lia|]. intros c Hc. apply in_seq in Hc.
    apply negb_true_iff, not_true_iff_false. rewrite beats_spec.
    destruct (Hall c) as [Hle Hlt]; [lia|].
    intros [H|[H1 H2]]; [lra|]. specialize (Hlt H2). lra.
Qed.



(** ** More on AverageMeter *)

Section MeterMore.
Import AverageMeter.











Lemma updates_from_positive (us : list (Q * Z)) :
  List.Forall (fun u => 0 <= snd u) us ->
  forall self, 1 <= count self -> exists m, updates us self = (Ok tt, m) /\ 1 <= count m.
Proof.
  induction 1 as [|[v n] us Hn _ IH]; intros self Hc.
  - exists self. split; [reflexivity|exact Hc].
  - simpl in Hn. unfold updates. simpl. unfold bind. rewrite update_ok by lia.
    fold (updates us). apply IH. simpl. lia.
Qed.

(** X9. With batch sizes [n >= 0], a run of updates on a reset meter fails
    exactly when its first update has [n = 0]: that update raises
    [ZeroDivisionError] after storing [val], leaving [count = 0] and the
    [avg] of the reset; once a sample has been counted no later update can
    fail. *)
Theorem AverageMeter_fails_on_empty_first_batch (self : t) (v : Q) (n : Z)
    (us : list (Q * Z))
    (Hn : 0 <= n) (Hus : List.Forall (fun u => 0 <= snd u) us) :
  (n = 0 ->
   exists m, updates ((v, n) :: us) (reset self) = (Raise ZeroDivisionError, m) /\
             val m = v /\ count m = 0 /\ avg m = 0%Q /\ (sum m == 0)%Q) /\
  (n <> 0 -> exists m, updates ((v, n) :: us) (reset self) = (Ok tt, m)).
Proof.
  split.
  - intros ->. unfold updates. simpl. unfold bind, update. simpl.
    eexists. split; [reflexivity|]. repeat split. simpl. ring.
  - intros Hnz. unfold updates. simpl. unfold bind.
    rewrite update_ok by (simpl; lia). fold (updates us).
    destruct (updates_from_positive us Hus) with
      (self := {| name := name (reset self); fmt := fmt (reset self); val := v;
                  avg := ((sum (reset self) + v * inject_Z n)
                          / inject_Z (count (reset self) + n))%Q;
                  sum := (sum (reset self) + v * inject_Z n)%Q;
                  count := count (reset self) + n |}) as (m & Hm & _).
    { simpl. lia. }
    exists m. exact Hm.
Qed.

Lemma AverageMeter_fails_on_empty_first_batch_witness :
  (exists m, updates [(50 # 1, 0); (100 # 1, 2)] (reset (__init__ "ValAcc@1" ":f"))
             = (Raise ZeroDivisionError, m)) /\
  (exists m, updates [(50 # 1, 2); (100 # 1, 0)] (reset (__init__ "ValAcc@1" ":f"))
             = (Ok tt, m)).
Proof.
  split.
  - destruct (AverageMeter_fails_on_empty_first_batch
                (__init__ "ValAcc@1" ":f") (50 # 1) 0 [(100 # 1, 2)]) as [H _].
    + lia.
    + repeat constructor; simpl; lia.
    + destruct (H eq_refl) as (m & Hm & _). exists m. exact Hm.
  - destruct (AverageMeter_fails_on_empty_first_batch
                (__init__ "ValAcc@1" ":f") (50 # 1) 2 [(100 # 1, 0)]) as [_ H].
    + lia.
    + repeat constructor; simpl; lia.
    + apply H. lia.
Defined.

End MeterMore.

(** ** More on the train/validation split *)

Section SplitMore.
Variable shuffle : Z -> list nat -> list nat.
Hypothesis shuffle_perm : forall seed l, Permutation l (shuffle seed l).

Lemma num_train_of_bounds (train_percent n : Z) :
  0 <= train_percent <= 100 -> 0 <= n ->
  0 <= num_train_of train_percent n <= n.
Proof.
  intros Hp Hn. unfold num_train_of, py_int.
  rewrite Z.quot_div_nonneg by nia.
  split; [apply Z.div_pos; nia|].
  apply Z.div_le_upper_bound; nia.
Qed.

Lemma num_val_of_bounds (m : Z) : 0 <= m -> 0 <= num_val_of m <= m.
Proof.
  intros Hm. unfold num_val_of, py_int. rewrite Z.quot_div_nonneg by lia.
  split; [apply Z.div_pos; lia|]. apply Z.div_le_upper_bound; lia.
Qed.

(** X10. Whatever the percentage, the split sends every index of the
    dataset to exactly one of the two lists: train and validation indices
    together are a permutation of [range(N)], so neither list repeats an
    index, they share none, and every index is below [N]. *)
Theorem split_partitions_dataset (train_percent n : Z) :
  let train_idx := fst (split_train_val shuffle train_percent n) in
  let val_idx := snd (split_train_val shuffle train_percent n) in
  Permutation (train_idx ++ val_idx) (py_range n) /\
  List.NoDup train_idx /\ List.NoDup val_idx /\
  (forall i, In i train_idx -> ~ In i val_idx) /\
  (forall i, In i train_idx \/ In i val_idx -> (i < Z.to_nat n)%nat).
Proof using shuffle_perm.
  intros train_idx val_idx.
  assert (Hp : Permutation (train_idx ++ val_idx) (py_range n)).
  { unfold train_idx, val_idx. rewrite split_is_a_cut. symmetry. apply shuffle_perm. }
  assert (Hnd : List.NoDup (train_idx ++ val_idx)).
  { eapply Permutation_NoDup; [symmetry; exact Hp|apply seq_NoDup]. }
  split; [exact Hp|].
  split; [eapply NoDup_app_remove_r; exact Hnd|].
  split; [eapply NoDup_app_remove_l; exact Hnd|].
  split.
  - intros i H1 H2. exact (NoDup_app_no_common _ _ i Hnd H1 H2).
  - intros i Hi.
    assert (Hin : In i (py_range n)).
    { eapply Permutation_in; [exact Hp|]. apply in_or_app. exact Hi. }
    apply in_seq in Hin. lia.
Qed.

(** X11. For a percentage between 0 and 100, with
    [num_train = int(p * N / 100)] and [num_val = int(0.1 * num_train)], the
    training list has [num_train - num_val] indices and the validation list
    has all the remaining [N - (num_train - num_val)], which is [num_val]
    only when [num_train = N]. *)
Theorem split_list_sizes (train_percent n : Z)
    (Hp : 0 <= train_percent <= 100) (Hn : 0 <= n) :
  let num_train := num_train_of train_percent n in
  let num_val := num_val_of num_train in
  len (fst (split_train_val shuffle train_percent n)) = num_train - num_val /\
  len (snd (split_train_val shuffle train_percent n)) = n - (num_train - num_val) /\
  (len (snd (split_train_val shuffle train_percent n)) = num_val <-> num_train = n).
Proof using shuffle_perm.
  intros num_train num_val.
  pose proof (num_train_of_bounds train_percent n Hp Hn) as Ht.
  pose proof (num_val_of_bounds (num_train_of train_percent n) (proj1 Ht)) as Hv.
  fold num_train in Ht, Hv. fold num_val in Hv.
  destruct (split_sizes shuffle shuffle_perm train_percent n) as [H1 H2].
  { simpl. fold num_train. fold num_val. lia. }
  fold num_train in H1, H2. fold num_val in H1, H2.
  split; [exact H1|]. split; [exact H2|]. rewrite H2. lia.
Qed.

End SplitMore.

Lemma split_partitions_dataset_witness :
  Permutation (fst (split_train_val (fun _ l => rev l) 10 20)
               ++ snd (split_train_val (fun _ l => rev l) 10 20))
              (py_range 20).
Proof.
  apply (split_partitions_dataset (fun _ l => rev l)).
  intros _ l. apply Permutation_rev.
Defined.

Lemma split_list_sizes_witness :
  len (fst (split_train_val (fun _ l => rev l) 1 50000)) = 450 /\
  len (snd (split_train_val (fun _ l => rev l) 1 50000)) = 49550.
Proof.
  destruct (split_list_sizes (fun _ l => rev l)) with (train_percent := 1) (n := 50000)
    as (H1 & H2 & _).
  - intros _ l. apply Permutation_rev.
  - lia.
  - lia.
  - split; [rewrite H1|rewrite H2]; reflexivity.
Defined.

(** ** More on state dicts, the optimiser state and the sanity check *)

Section StrictLoad.
Context {T : Type}.

(** X12. A strict [load_state_dict] succeeds exactly when the two dicts
    have the same keys; it then keeps the order of the module's keys and
    takes every tensor from the loaded dict, and otherwise it raises
    [RuntimeError]. *)
Theorem load_state_dict_strict_iff (model sd : list (string * T)) :
  ((exists model', load_state_dict_strict model sd = Ok model') <->
   (forall k, In k (map fst model) <-> In k (map fst sd))) /\
  (forall model', load_state_dict_strict model sd = Ok model' ->
     map fst model' = map fst model /\ forall k, sd_get model' k = sd_get sd k) /\
  ((exists k, ~ (In k (map fst model) <-> In k (map fst sd))) ->
   load_state_dict_strict model sd = Raise RuntimeError).
Proof.
  assert (Hinv : forall model', load_state_dict_strict model sd = Ok model' ->
                 forall k, In k (map fst model) <-> In k (map fst sd)).
  { intros model' H. unfold load_state_dict_strict in H.
    destruct (load_state_dict model (map fst sd) (sd_get sd))
      as [m [missing unexpected]] eqn:E.
    destruct missing; [|discriminate]. destruct unexpected; [|discriminate].
    intros k. split; intros Hk.
    - destruct (sd_get sd k) eqn:Hg; [apply sd_get_is_Some; eauto|].
      assert (Hin : In k (fst (snd (load_state_dict model (map fst sd) (sd_get sd)))))
        by (apply load_missing_spec; split; assumption).
      rewrite E in Hin. destruct Hin.
    - revert k Hk. apply load_unexpected_nil with (get := sd_get sd).
      rewrite E. reflexivity. }
  split; [|split].
  - split.
    + intros [model' H]. exact (Hinv model' H).
    + intros Hkeys. destruct (load_state_dict_strict_ok model sd Hkeys) as (m & Hm & _).
      eauto.
  - intros model' H.
    destruct (load_state_dict_strict_ok model sd (Hinv model' H)) as (m & Hm & Hk & Hg).
    rewrite Hm in H. injection H as <-. split; assumption.
  - intros [k Hk].
    destruct (load_state_dict_strict model sd) as [model'|e] eqn:E.
    + exfalso. apply Hk. exact (Hinv model' eq_refl k).
    + unfold load_state_dict_strict in E.
      destruct (load_state_dict model (map fst sd) (sd_get sd)) as [m [[|? ?] [|? ?]]];
        congruence.
Qed.

(** Saving and loading back: a module that loads its own [state_dict()]
    is unchanged as a dict. *)
Lemma load_own_state_dict (model : list (string * T)) :
  exists model',
    load_state_dict_strict model model = Ok model' /\
    forall k, sd_get model' k = sd_get model k.
Proof.
  destruct (load_state_dict_strict_ok model model) as (m & Hm & _ & Hg);
    [intros k; reflexivity|].
  exists m. split; assumption.
Qed.

End StrictLoad.

Section OptimizerState.
Context {F : Framework}.

Lemma zip_with_own_state (gs : list ParamGroup.t) :
  zip_with (fun g (s : nat * Q) =>
              {| ParamGroup.params := ParamGroup.params g; ParamGroup.lr := snd s |})
           gs (map (fun g => (length (ParamGroup.params g), ParamGroup.lr g)) gs) = gs.
Proof.
  induction gs as [|[ps l] gs IH]; simpl; [reflexivity|]. rewrite IH. reflexivity.
Qed.

(** X13. The optimiser state round-trips: an optimiser that loads its own
    [state_dict()] is unchanged, and whenever a load succeeds the optimiser's
    [state_dict()] is the dict loaded while the parameters of every group
    stay.  A load succeeds exactly when the saved groups have the sizes of
    the optimiser's groups; otherwise it raises [ValueError]. *)
Theorem optimizer_state_dict_round_trip (o : Optimizer.t) (sd : list (nat * Q) * OptState) :
  Optimizer.load_state_dict o (Optimizer.state_dict o) = Ok o /\
  (forall o', Optimizer.load_state_dict o sd = Ok o' ->
     Optimizer.state_dict o' = sd /\
     map ParamGroup.params (Optimizer.param_groups o') =
       map ParamGroup.params (Optimizer.param_groups o)) /\
  ((exists o', Optimizer.load_state_dict o sd = Ok o') <->
   map (fun g => length (ParamGroup.params g)) (Optimizer.param_groups o)
   = map fst (fst sd)) /\
  (map (fun g => length (ParamGroup.params g)) (Optimizer.param_groups o)
   <> map fst (fst sd) ->
   Optimizer.load_state_dict o sd = Raise ValueError).
Proof.
  split; [|split; [|split]].
  - unfold Optimizer.load_state_dict, Optimizer.state_dict. simpl.
    rewrite map_map. simpl.
    destruct (decide _) as [_|Hn]; [|contradiction].
    rewrite zip_with_own_state. destruct o. reflexivity.
  - intros o' H.
    assert (E : map (fun g => length (ParamGroup.params g)) (Optimizer.param_groups o)
                = map fst (fst sd)).
    { unfold Optimizer.load_state_dict in H. destruct (decide _); [assumption|discriminate]. }
    destruct (optimizer_load_state_dict_ok o sd E) as (o2 & H2 & Hs & Hp).
    rewrite H2 in H. injection H as <-. split; assumption.
  - split.
    + intros [o' H]. unfold Optimizer.load_state_dict in H.
      destruct (decide _); [assumption|discriminate].
    + intros E. destruct (optimizer_load_state_dict_ok o sd E) as (o2 & H2 & _). eauto.
  - intros Hn. unfold Optimizer.load_state_dict.
    destruct (decide _); [contradiction|reflexivity].
Qed.

(** X14. The sanity check passes exactly when every tensor of the
    pretrained dict is found, equal, under the same name in the model.  When
    it fails, the exception names a key of the pretrained dict: [KeyError]
    for a name the model lacks, [AssertionError] with the key for a tensor
    that differs. *)
Theorem sanity_check_iff (reference : gmap string Tensor) (model : list (string * Tensor)) :
  (sanity_check reference model = Ok tt <->
   forall k t, reference !! k = Some t -> sd_get model k = Some t) /\
  (forall e, sanity_check reference model = Raise e ->
     exists k t,
       reference !! k = Some t /\
       ((e = KeyError k /\ sd_get model k = None) \/
        (e = AssertionError (Some k) /\
         exists t', sd_get model k = Some t' /\ t' <> t))).
Proof.
  unfold sanity_check.
  assert (Hl : forall kv, In kv (map_to_list reference) <->
                          reference !! fst kv = Some (snd kv)).
  { intros [k t]. simpl. rewrite <- elem_of_map_to_list. symmetry. apply list_elem_of_In. }
  assert (Hgen : forall l,
            (fold_result
               (fun (_ : unit) (kv : string * Tensor) =>
                  match sd_get model (fst kv) with
                  | None => Raise (KeyError (fst kv))
                  | Some t => if decide (t = snd kv) then Ok tt
                              else Raise (AssertionError (Some (fst kv)))
                  end) l tt = Ok tt <->
             forall kv, In kv l -> sd_get model (fst kv) = Some (snd kv)) /\
            (forall e,
               fold_result
                 (fun (_ : unit) (kv : string * Tensor) =>
                    match sd_get model (fst kv) with
                    | None => Raise (KeyError (fst kv))
                    | Some t => if decide (t = snd kv) then Ok tt
                                else Raise (AssertionError (Some (fst kv)))
                    end) l tt = Raise e ->
               exists kv, In kv l /\
                 ((e = KeyError (fst kv) /\ sd_get model (fst kv) = None) \/
                  (e = AssertionError (Some (fst kv)) /\
                   exists t', sd_get model (fst kv) = Some t' /\ t' <> snd kv)))).
  { induction l as [|kv l [IH1 IH2]]; simpl.
    - split; [split; [intros _ ? []|reflexivity]|discriminate].
    - destruct (sd_get model (fst kv)) as [t0|] eqn:E; simpl.
      + destruct (decide (t0 = snd kv)) as [->|Hne]; simpl.
        * split.
          -- rewrite IH1. split.
             ++ intros H kv' [<-|Hin]; [exact E|apply H; exact Hin].
             ++ intros H kv' Hin. apply H. right. exact Hin.
          -- intros e He. destruct (IH2 e He) as (kv' & Hin & Hc).
             exists kv'. split; [right; exact Hin|exact Hc].
        * split.
          -- split; [discriminate|]. intros H.
             specialize (H kv (or_introl eq_refl)). congruence.
          -- intros e [= <-]. exists kv. split; [left; reflexivity|].
             right. split; [reflexivity|]. exists t0. split; [exact E|exact Hne].
      + split.
        * split; [discriminate|]. intros H.
          specialize (H kv (or_introl eq_refl)). congruence.
        * intros e [= <-]. exists kv. split; [left; reflexivity|].
          left. split; [reflexivity|exact E]. }
  destruct (Hgen (map_to_list reference)) as [H1 H2]. split.
  - rewrite H1. split.
    + intros H k t Hk. apply (H (k, t)). apply Hl. exact Hk.
    + intros H [k t] Hin. apply H. apply Hl in Hin. exact Hin.
  - intros e He. destruct (H2 e He) as ([k t] & Hin & Hc).
    exists k, t. split; [apply Hl in Hin; exact Hin|exact Hc].
Qed.

End OptimizerState.

(** ** What a worker does to the world *)

Section KeepsRules.
Context {S : Type}.
Variable R : S -> S -> Prop.
Hypothesis R_refl : forall s, R s s.
Hypothesis R_trans : forall s1 s2 s3, R s1 s2 -> R s2 s3 -> R s1 s3.

Lemma keeps_ret {A} (a : A) : keeps R (ret a).
Proof using R_refl. intros s. apply R_refl. Qed.

Lemma keeps_raise {A} (e : exn) : keeps R (@raise S A e).
Proof using R_refl. intros s. apply R_refl. Qed.

Lemma keeps_lift {A} (r : result A) : keeps R (lift r).
Proof using R_refl. intros s. apply R_refl. Qed.

Lemma keeps_get : keeps R get.
Proof using R_refl. intros s. apply R_refl. Qed.

Lemma keeps_bind {A B} (c : M S A) (f : A -> M S B) :
  keeps R c -> (forall a, keeps R (f a)) -> keeps R (bind c f).
Proof using R_trans.
  intros Hc Hf s. unfold bind. specialize (Hc s).
  destruct (c s) as [[a|e] s']; simpl in *; [|exact Hc].
  eapply R_trans; [exact Hc|apply Hf].
Qed.

Lemma keeps_fold_M {A B} (f : B -> A -> M S B) (xs : list A) (b : B) :
  (forall b x, keeps R (f b x)) -> keeps R (fold_M f xs b).
Proof using R_refl R_trans.
  intros Hf. revert b. induction xs as [|x xs IH]; intros b; simpl.
  - apply keeps_ret.
  - apply keeps_bind; [apply Hf|apply IH].
Qed.

End KeepsRules.

Section WorkerWorld.
Context {F : Framework}.

(** [main_worker] as a cascade of its stages. *)
Lemma main_worker_unfold (gpu : Z) (args : Args.t) (w : World) :
  main_worker gpu args w =
  match setup args with
  | Raise e => (Raise e, after_argv args (Args.rank args + gpu) w)
  | Ok st0 =>
      match resume st0 (after_argv args (Args.rank args + gpu) w) with
      | (Raise e, w2) => (Raise e, w2)
      | (Ok r, w2) =>
          if Args.world_size args =? 0 then (Raise ZeroDivisionError, w2)
          else run_epochs args (Args.rank args + gpu)
                 (train_loader_of args (Args.rank args + gpu))
                 (val_loader_of args) (test_loader_of args) (fst r) (snd r) w2
      end
  end.
Proof.
  unfold main_worker, after_argv, bind, lift, print_both, modify, ret, raise.
  destruct (Args.rank args + gpu =? 0); simpl;
    (destruct (setup args) as [st0|e]; [|reflexivity]);
    (match goal with |- context [resume st0 ?w1] => destruct (resume st0 w1) as [[r|e] w2] end;
     [|reflexivity]);
    destruct (Args.world_size args =? 0); reflexivity.
Qed.

Section Keeping.
Variable R : World -> World -> Prop.
Hypothesis R_refl : forall w, R w w.
Hypothesis R_trans : forall w1 w2 w3, R w1 w2 -> R w2 w3 -> R w1 w3.
Variable rank : Z.
Hypothesis R_print : rank = 0 -> forall l, keeps R (print_both l).
Hypothesis R_save : rank = 0 -> forall c, keeps R (torch_save c).

Lemma train_batch_keeps (args : Args.t) (epoch : Z) (training : bool)
    (st : Locals.t) (sb : Z * (Images * list Z)) :
  keeps R (train_batch args rank epoch training st sb).
Proof using R_refl R_trans R_print.
  unfold train_batch.
  destruct (Args.print_freq args =? 0); [apply keeps_raise, R_refl|].
  destruct (fst sb mod Args.print_freq args =? 0); [|apply keeps_ret, R_refl].
  destruct (Z.eqb_spec rank 0) as [Hr|_]; [|apply keeps_ret, R_refl].
  destruct (Optimizer.param_groups _) as [|g0 pg]; [apply keeps_raise, R_refl|].
  apply keeps_bind; [exact R_trans|apply R_print; exact Hr|].
  intros _. apply keeps_ret, R_refl.
Qed.

Lemma evaluate_and_report_keeps (epoch : Z)
    (val_loader test_loader : list (Images * list Z)) (st : Locals.t) :
  rank = 0 -> keeps R (evaluate_and_report epoch val_loader test_loader st).
Proof using R_refl R_trans R_print.
  intros Hr. unfold evaluate_and_report.
  apply keeps_bind; [exact R_trans|apply keeps_lift, R_refl|]. intros val.
  apply keeps_bind; [exact R_trans|apply keeps_lift, R_refl|]. intros test.
  apply keeps_bind; [exact R_trans|apply R_print; exact Hr|].
  intros _. apply keeps_ret, R_refl.
Qed.

Lemma finish_epoch_keeps (args : Args.t) (epoch : Z) (st : Locals.t) :
  keeps R (finish_epoch args rank epoch st).
Proof using R_refl R_trans R_save.
  unfold finish_epoch.
  apply keeps_bind; [exact R_trans| |].
  - destruct (decide _); [apply keeps_lift|apply keeps_ret]; apply R_refl.
  - intros _. apply keeps_bind; [exact R_trans| |intros _; apply keeps_ret, R_refl].
    destruct (Z.eqb_spec rank 0) as [Hr|_]; [apply R_save; exact Hr|apply keeps_ret, R_refl].
Qed.

Lemma epoch_body_keeps (args : Args.t)
    (train_loader : Z -> list (Images * list Z))
    (val_loader test_loader : list (Images * list Z))
    (st : Locals.t) (epoch : Z) :
  keeps R (epoch_body args rank train_loader val_loader test_loader st epoch).
Proof using R_refl R_trans R_print R_save.
  unfold epoch_body.
  apply keeps_bind; [exact R_trans| |].
  - unfold set_mode. destruct (decide _); [apply keeps_ret, R_refl|].
    destruct (decide _); [apply keeps_ret|apply keeps_raise]; apply R_refl.
  - intros training. apply keeps_bind; [exact R_trans| |].
    + apply keeps_fold_M; [exact R_refl|exact R_trans|].
      intros st1 sb. apply train_batch_keeps.
    + intros st1. apply keeps_bind; [exact R_trans| |intros st2; apply finish_epoch_keeps].
      destruct (Z.eqb_spec rank 0) as [Hr|_];
        [apply evaluate_and_report_keeps; exact Hr|apply keeps_ret, R_refl].
Qed.

Lemma run_epochs_keeps (args : Args.t)
    (train_loader : Z -> list (Images * list Z))
    (val_loader test_loader : list (Images * list Z))
    (start_epoch : Z) (st : Locals.t) :
  keeps R (run_epochs args rank train_loader val_loader test_loader start_epoch st).
Proof using R_refl R_trans R_print R_save.
  unfold run_epochs. apply keeps_fold_M; [exact R_refl|exact R_trans|].
  intros st1 epoch. apply epoch_body_keeps.
Qed.

End Keeping.

Lemma resume_world (st : Locals.t) (w : World) : snd (resume st w) = w.
Proof.
  pose proof (resume_post st w) as H. unfold post in H.
  destruct (resume st w) as [[r|e] w']; simpl; [exact (proj1 H)|exact (proj1 H)].
Qed.

Lemma main_worker_keeps (R : World -> World -> Prop) (gpu : Z) (args : Args.t) :
  (forall w, R w w) ->
  (forall w1 w2 w3, R w1 w2 -> R w2 w3 -> R w1 w3) ->
  (Args.rank args + gpu = 0 -> forall l, keeps R (print_both l)) ->
  (Args.rank args + gpu = 0 -> forall c, keeps R (torch_save c)) ->
  keeps R (main_worker gpu args).
Proof.
  intros Hrefl Htrans Hprint Hsave w. rewrite main_worker_unfold.
  assert (Hargv : R w (after_argv args (Args.rank args + gpu) w)).
  { unfold after_argv. destruct (Z.eqb_spec (Args.rank args + gpu) 0) as [Hr|_];
      [|apply Hrefl]. apply (Hprint Hr (ArgvLine (Args.argv args)) w). }
  destruct (setup args) as [st0|e]; [|exact Hargv].
  pose proof (resume_world st0 (after_argv args (Args.rank args + gpu) w)) as Hres.
  destruct (resume st0 _) as [[r|e] w2]; simpl in Hres; subst w2; [|exact Hargv].
  destruct (Args.world_size args =? 0); [exact Hargv|].
  eapply Htrans; [exact Hargv|].
  apply (run_epochs_keeps R Hrefl Htrans (Args.rank args + gpu) Hprint Hsave).
Qed.

(** X15. Only rank 0 writes: a worker of any other rank leaves the standard
    output, [stats.txt] and the checkpoint file exactly as they were,
    whether it finishes or raises. *)
Theorem other_ranks_write_nothing (gpu : Z) (args : Args.t) (w : World)
    (Hrank : Args.rank args + gpu <> 0) :
  snd (main_worker gpu args w) = w.
Proof.
  symmetry.
  apply (main_worker_keeps (fun w1 w2 => w1 = w2) gpu args);
    [reflexivity|intros; congruence|contradiction|contradiction].
Qed.

Lemma same_lines_appended_refl (w : World) : same_lines_appended w w.
Proof. exists []. rewrite !app_nil_r. split; reflexivity. Qed.

Lemma same_lines_appended_trans (w1 w2 w3 : World) :
  same_lines_appended w1 w2 -> same_lines_appended w2 w3 -> same_lines_appended w1 w3.
Proof.
  intros (l1 & A1 & B1) (l2 & A2 & B2). exists (l1 ++ l2).
  rewrite A2, B2, A1, B1, !app_assoc. split; reflexivity.
Qed.

(** X16. [stats.txt] mirrors the standard output: whatever a worker does,
    and whether it finishes or raises, the lines it has added to the
    standard output are the lines it has appended to [stats.txt], in the
    same order; nothing already there is changed. *)
Theorem stats_file_mirrors_stdout (gpu : Z) (args : Args.t) (w : World) :
  exists lines,
    stdout (snd (main_worker gpu args w)) = stdout w ++ lines /\
    stats_file (snd (main_worker gpu args w)) = stats_file w ++ lines.
Proof.
  apply (main_worker_keeps same_lines_appended gpu args).
  - apply same_lines_appended_refl.
  - apply same_lines_appended_trans.
  - intros _ l w0. exists [l]. split; reflexivity.
  - intros _ c w0. exists []. simpl. rewrite !app_nil_r. split; reflexivity.
Qed.

End WorkerWorld.

Lemma other_ranks_write_nothing_witness :
  snd (main_worker (F := toy_framework) 1 (toy_args "freeze" 2) empty_world) = empty_world.
Proof.
  apply (other_ranks_write_nothing (F := toy_framework) 1 (toy_args "freeze" 2) empty_world).
  vm_compute. discriminate.
Defined.

(** ** Whole runs *)

Section WholeRuns.
Context {F : Framework}.

Lemma epoch_numbers_app (l1 l2 : list line) :
  epoch_numbers (l1 ++ l2) = epoch_numbers l1 ++ epoch_numbers l2.
Proof. unfold epoch_numbers. apply flat_map_app. Qed.

Lemma train_batch_epoch_numbers (args : Args.t) (rank epoch : Z) (training : bool)
    (st : Locals.t) (sb : Z * (Images * list Z)) (w : World) :
  post (train_batch args rank epoch training st sb) w
       (fun _ w' => epoch_numbers (stdout w') = epoch_numbers (stdout w))
       (fun _ _ => True).
Proof.
  unfold train_batch, post.
  destruct (Args.print_freq args =? 0); simpl; [exact I|].
  destruct (fst sb mod Args.print_freq args =? 0); simpl; [|reflexivity].
  destruct (rank =? 0); simpl; [|reflexivity].
  destruct (Optimizer.param_groups _) as [|g0 pg]; simpl; [exact I|].
  rewrite epoch_numbers_app. simpl. apply app_nil_r.
Qed.

Lemma epoch_body_epoch_numbers (args : Args.t)
    (train_loader : Z -> list (Images * list Z))
    (val_loader test_loader : list (Images * list Z))
    (st : Locals.t) (epoch : Z) (w : World) :
  post (epoch_body args 0 train_loader val_loader test_loader st epoch) w
       (fun _ w' => epoch_numbers (stdout w') = epoch_numbers (stdout w) ++ [epoch])
       (fun _ _ => True).
Proof.
  unfold epoch_body. apply post_bind.
  assert (Hrest : forall training,
            post (bind (fold_M (train_batch args 0 epoch training)
                               (enumerate (train_loader epoch)
                                          (epoch * len (train_loader epoch))) st)
                       (fun st0 =>
                          bind (evaluate_and_report epoch val_loader test_loader st0)
                               (fun st1 => finish_epoch args 0 epoch st1))) w
                 (fun _ w' => epoch_numbers (stdout w') = epoch_numbers (stdout w) ++ [epoch])
                 (fun _ _ => True)).
  { intros training. apply post_bind.
    eapply post_weaken.
    - apply (post_fold_M _ _
               (fun _ (w' : World) => epoch_numbers (stdout w') = epoch_numbers (stdout w))
               (fun _ _ => True)); [|reflexivity].
      intros st1 sb w1 _ H1.
      eapply post_weaken; [apply train_batch_epoch_numbers| |auto].
      intros ? w2 H2. simpl in H2. congruence.
    - intros st1 w1 H1. apply post_bind.
      eapply post_weaken; [apply evaluate_and_report_post| |auto].
      intros st2 w2 (_ & _ & _ & _ & _ & v1 & v5 & t1 & t5 & _ & Hout & _).
      eapply post_weaken; [apply finish_epoch_post| |auto].
      intros st3 w3 (_ & Hout3 & _).
      rewrite Hout3, Hout, epoch_numbers_app, H1. reflexivity.
    - auto. }
  unfold set_mode.
  destruct (decide (Args.weights args = "finetune")).
  - apply post_ret. apply Hrest.
  - destruct (decide (Args.weights args = "freeze")).
    + apply post_ret. apply Hrest.
    + apply post_raise. exact I.
Qed.

Lemma epochs_epoch_numbers (args : Args.t)
    (train_loader : Z -> list (Images * list Z))
    (val_loader test_loader : list (Images * list Z))
    (es : list Z) (st : Locals.t) (w : World) :
  post (fold_M (epoch_body args 0 train_loader val_loader test_loader) es st) w
       (fun _ w' => epoch_numbers (stdout w') = epoch_numbers (stdout w) ++ es)
       (fun _ _ => True).
Proof.
  revert st w. induction es as [|e es IH]; intros st w; simpl.
  - unfold post, ret. simpl. symmetry. apply app_nil_r.
  - apply post_bind.
    eapply post_weaken; [apply epoch_body_epoch_numbers| |auto].
    intros st1 w1 H1.
    eapply post_weaken; [apply IH| |auto].
    intros st2 w2 H2. rewrite H2, H1, <- app_assoc. reflexivity.
Qed.

Lemma after_argv_checkpoint (args : Args.t) (rank : Z) (w : World) :
  checkpoint_pth (after_argv args rank w) = checkpoint_pth w.
Proof. unfold after_argv. destruct (rank =? 0); reflexivity. Qed.

Lemma after_argv_epoch_numbers (args : Args.t) (rank : Z) (w : World) :
  epoch_numbers (stdout (after_argv args rank w)) = epoch_numbers (stdout w).
Proof.
  unfold after_argv. destruct (rank =? 0); [|reflexivity].
  simpl. rewrite epoch_numbers_app. simpl. apply app_nil_r.
Qed.

(** X17. A run of rank 0 that finishes has printed one epoch record for
    each epoch from the start epoch to [epochs - 1], in this order, and no
    other epoch record. *)
Theorem one_epoch_record_per_epoch (gpu : Z) (args : Args.t) (w w' : World) (st : Locals.t)
    (Hrank : Args.rank args + gpu = 0)
    (Hrun : main_worker gpu args w = (Ok st, w')) :
  exists start_epoch st0,
    start_of_loop args w = Ok (start_epoch, st0) /\
    epoch_numbers (stdout w') =
      epoch_numbers (stdout w) ++ py_range2 start_epoch (Args.epochs args).
Proof.
  rewrite main_worker_unfold in Hrun. unfold start_of_loop.
  destruct (setup args) as [st_s|e]; [|discriminate].
  pose proof (resume_depends_on_checkpoint st_s _ _
                (after_argv_checkpoint args (Args.rank args + gpu) w)) as Hsame.
  pose proof (resume_world st_s (after_argv args (Args.rank args + gpu) w)) as Hw.
  destruct (resume st_s (after_argv args (Args.rank args + gpu) w)) as [[r|e] w2];
    [|discriminate].
  simpl in Hsame, Hw. subst w2.
  destruct (Args.world_size args =? 0); [discriminate|].
  exists (fst r), (snd r). split; [rewrite <- Hsame; destruct r; reflexivity|].
  rewrite Hrank in Hrun. unfold run_epochs in Hrun.
  pose proof (epochs_epoch_numbers args (train_loader_of args 0) (val_loader_of args)
                (test_loader_of args) (py_range2 (fst r) (Args.epochs args)) (snd r)
                (after_argv args (Args.rank args + gpu) w)) as Hp.
  unfold post in Hp. rewrite Hrank in Hp. rewrite Hrun in Hp.
  rewrite Hp, <- Hrank, after_argv_epoch_numbers. reflexivity.
Qed.

(** *** Running a finished job again *)

Lemma fold_M_app {S A B} (f : B -> A -> M S B) (l1 l2 : list A) (b : B) (s : S) :
  fold_M f (l1 ++ l2) b s = bind (fold_M f l1 b) (fold_M f l2) s.
Proof.
  revert b s. induction l1 as [|x l1 IH]; intros b s; simpl.
  - unfold bind, ret. reflexivity.
  - unfold bind in *. destruct (f b x s) as [[b'|e] s']; [|reflexivity].
    apply IH.
Qed.

Lemma py_range2_snoc (a b : Z) :
  a < b -> py_range2 a b = py_range2 a (b - 1) ++ [b - 1].
Proof.
  intros H. unfold py_range2.
  replace (Z.to_nat (b - a)) with (Z.to_nat (b - 1 - a) + 1)%nat by lia.
  rewrite seq_app, map_app. simpl. do 2 f_equal. lia.
Qed.

Lemma epochs_layout (args : Args.t) (rank : Z)
    (train_loader : Z -> list (Images * list Z))
    (val_loader test_loader : list (Images * list Z))
    (es : list Z) (st : Locals.t) (w : World) :
  post (fold_M (epoch_body args rank train_loader val_loader test_loader) es st) w
       (fun st' _ => same_layout st st') (fun _ _ => True).
Proof.
  apply (post_fold_M _ _ (fun st' (_ : World) => same_layout st st')); [|apply same_layout_refl].
  intros st1 e w1 _ Hl. simpl in Hl.
  eapply post_weaken; [apply epoch_body_post| |auto].
  intros st2 w2 (Hl2 & _). eapply same_layout_trans; eassumption.
Qed.

(** After at least one epoch, the checkpoint of rank 0 is the one written at
    the end of the last epoch. *)
Lemma run_epochs_checkpoint (args : Args.t)
    (train_loader : Z -> list (Images * list Z))
    (val_loader test_loader : list (Images * list Z))
    (start_epoch : Z) (st : Locals.t) (w : World) :
  start_epoch < Args.epochs args ->
  post (run_epochs args 0 train_loader val_loader test_loader start_epoch st) w
       (fun st' w' =>
          same_layout st st' /\
          checkpoint_pth w' = Some (checkpoint_of (Args.epochs args - 1) st'))
       (fun _ _ => True).
Proof.
  intros Hlt. unfold run_epochs, post. rewrite (py_range2_snoc _ _ Hlt), fold_M_app.
  change (post (bind (fold_M (epoch_body args 0 train_loader val_loader test_loader)
                             (py_range2 start_epoch (Args.epochs args - 1)) st)
                     (fold_M (epoch_body args 0 train_loader val_loader test_loader)
                             [Args.epochs args - 1])) w
               (fun st' w' =>
                  same_layout st st' /\
                  checkpoint_pth w' = Some (checkpoint_of (Args.epochs args - 1) st'))
               (fun _ _ => True)).
  apply post_bind.
  eapply post_weaken; [apply epochs_layout| |auto].
  intros st1 w1 Hl1. simpl. apply post_bind.
  eapply post_weaken; [apply epoch_body_post| |auto].
  intros st2 w2 (Hl2 & Hc & _). unfold post. simpl. split.
  - simpl in Hl1. eapply same_layout_trans; eassumption.
  - exact Hc.
Qed.

(** X18. Running a finished job again trains nothing: after a run of rank 0
    that finished, a second run with the same arguments resumes at
    [epochs], runs no epoch, prints only its command line, leaves the
    checkpoint as it is, and ends with the best accuracies of the first
    run. *)
Theorem rerun_trains_nothing (gpu : Z) (args : Args.t) (w w' : World) (st : Locals.t)
    (Hrank : Args.rank args + gpu = 0)
    (Hrun : main_worker gpu args w = (Ok st, w')) :
  exists st2,
    main_worker gpu args w' =
      (Ok st2,
       {| stdout := stdout w' ++ [ArgvLine (Args.argv args)];
          stats_file := stats_file w' ++ [ArgvLine (Args.argv args)];
          checkpoint_pth := checkpoint_pth w' |}) /\
    Locals.best_val_acc st2 = Locals.best_val_acc st /\
    Locals.best_test_acc st2 = Locals.best_test_acc st.
Proof.
  rewrite main_worker_unfold in Hrun. rewrite main_worker_unfold.
  destruct (setup args) as [st_s|e]; [|discriminate].
  pose proof (resume_post st_s (after_argv args (Args.rank args + gpu) w)) as Hpost.
  unfold post in Hpost.
  destruct (resume st_s (after_argv args (Args.rank args + gpu) w)) as [[r|e] w1] eqn:Hres;
    [|discriminate].
  destruct Hpost as (-> & Hl0 & _).
  destruct (Args.world_size args =? 0); [discriminate|].
  rewrite Hrank in *.
  assert (Hargv : after_argv args 0 w' =
                  {| stdout := stdout w' ++ [ArgvLine (Args.argv args)];
                     stats_file := stats_file w' ++ [ArgvLine (Args.argv args)];
                     checkpoint_pth := checkpoint_pth w' |}) by reflexivity.
  destruct (Z_lt_le_dec (fst r) (Args.epochs args)) as [Hlt|Hge].
  - pose proof (run_epochs_checkpoint args (train_loader_of args 0) (val_loader_of args)
                  (test_loader_of args) (fst r) (snd r) (after_argv args 0 w) Hlt) as Hp.
    unfold post in Hp. rewrite Hrun in Hp. destruct Hp as [Hl Hc].
    destruct (resume_loadable st_s (after_argv args 0 w')
                (checkpoint_of (Args.epochs args - 1) st)) as (st2 & Hr2 & Hrest & _).
    + rewrite after_argv_checkpoint. exact Hc.
    + apply checkpoint_of_loadable. eapply same_layout_trans; eassumption.
    + rewrite Hr2. simpl fst. simpl snd. unfold run_epochs.
      rewrite py_range2_nil by (simpl; lia). simpl. unfold ret.
      exists st2. rewrite Hargv. split; [reflexivity|].
      destruct Hrest as (Hv & Ht & _). split; assumption.
  - unfold run_epochs in Hrun. rewrite py_range2_nil in Hrun by lia.
    simpl in Hrun. unfold ret in Hrun. injection Hrun as <- <-.
    pose proof (resume_depends_on_checkpoint st_s (after_argv args 0 (after_argv args 0 w))
                  (after_argv args 0 w) (after_argv_checkpoint args 0 _)) as Hsame.
    pose proof (resume_world st_s (after_argv args 0 (after_argv args 0 w))) as Hw.
    rewrite Hres in Hsame. simpl in Hsame.
    destruct (resume st_s (after_argv args 0 (after_argv args 0 w))) as [r2 w2].
    simpl in Hsame, Hw. subst r2 w2.
    unfold run_epochs. rewrite py_range2_nil by lia. simpl. unfold ret.
    exists (snd r). rewrite Hargv. repeat split.
Qed.

(** *** The parameters that are trained *)

Lemma existsb_param_groups (k : string) (gs : list ParamGroup.t) :
  existsb (fun g => bool_decide (k ∈ ParamGroup.params g)) gs = true <->
  exists g, In g gs /\ In k (ParamGroup.params g).
Proof.
  rewrite existsb_exists. split; intros (g & Hg & Hk); exists g; split; try assumption.
  - apply bool_decide_eq_true in Hk. apply list_elem_of_In. exact Hk.
  - apply bool_decide_eq_true. apply list_elem_of_In. exact Hk.
Qed.

(** X21. Which tensors the optimiser updates: after [setup], a tensor is
    trained exactly when it is a named parameter of the model and either the
    run fine-tunes or the parameter belongs to the classifier head; the
    optimiser has the classifier group with [lr_classifier] and, when
    fine-tuning only, a second group with [lr_backbone]. *)
Theorem trained_parameters (args : Args.t) (st : Locals.t)
    (Hsetup : setup args = Ok st) :
  (forall k, trainable st k = true <->
             In k (named_parameters (Locals.model st)) /\
             (Args.weights args = "finetune" \/ In k fc_keys)) /\
  Optimizer.lrs (Locals.optimizer st) =
    Args.lr_classifier args ::
      (if decide (Args.weights args = "finetune") then [Args.lr_backbone args] else []).
Proof.
  unfold setup in Hsetup. destruct (build_model args) as [model|e]; [|discriminate].
  simpl in Hsetup. injection Hsetup as <-. split.
  - intros k. unfold trainable.
    rewrite andb_true_iff, existsb_param_groups. unfold make_optimizer, requires_grad_of.
    cbn [Locals.optimizer Locals.requires_grad Locals.model Optimizer.param_groups].
    destruct (decide (Args.weights args = "finetune")) as [Hft|Hft].
    + destruct (decide (Args.weights args = "freeze")) as [Hfz|_]; [congruence|].
      split.
      * intros [(g & Hg & Hk) _]. split; [|left; exact Hft].
        destruct Hg as [<-|[<-|[]]]; simpl in Hk; apply List.filter_In in Hk; apply Hk.
      * intros [Hk _]. split; [|reflexivity].
        destruct (bool_decide (k ∈ fc_keys)) eqn:E.
        -- eexists. split; [left; reflexivity|]. simpl.
           apply List.filter_In. split; assumption.
        -- eexists. split; [right; left; reflexivity|]. simpl.
           apply List.filter_In. split; [assumption|]. rewrite E. reflexivity.
    + split.
      * intros [(g & Hg & Hk) _]. destruct Hg as [<-|[]]. simpl in Hk.
        apply List.filter_In in Hk. destruct Hk as [Hk Hfck].
        split; [exact Hk|]. right.
        apply bool_decide_eq_true, list_elem_of_In in Hfck. exact Hfck.
      * intros [Hk [Hw|Hfck]]; [contradiction|].
        assert (E : bool_decide (k ∈ fc_keys) = true)
          by (apply bool_decide_eq_true, list_elem_of_In; exact Hfck).
        split.
        -- eexists. split; [left; reflexivity|]. simpl.
           apply List.filter_In. split; assumption.
        -- destruct (decide (Args.weights args = "freeze")); [exact E|reflexivity].
  - unfold Optimizer.lrs, make_optimizer. simpl.
    destruct (decide (Args.weights args = "finetune")); reflexivity.
Qed.

(** *** [--print-freq 0] *)

(** X22. With [print_freq = 0] an epoch that has a training batch raises
    [ZeroDivisionError] at its first batch, from [step % print_freq]:
    nothing is printed, evaluated or saved. *)
Theorem print_freq_zero_raises (args : Args.t) (rank : Z)
    (train_loader : Z -> list (Images * list Z))
    (val_loader test_loader : list (Images * list Z))
    (st : Locals.t) (epoch : Z) (w : World)
    (Hfreq : Args.print_freq args = 0)
    (Hweights : Args.weights args = "finetune" \/ Args.weights args = "freeze")
    (Hbatch : train_loader epoch <> []) :
  epoch_body args rank train_loader val_loader test_loader st epoch w
  = (Raise ZeroDivisionError, w).
Proof.
  unfold epoch_body.
  assert (Hmode : exists training, set_mode args w = (Ok training, w)).
  { unfold set_mode. destruct Hweights as [H|H]; rewrite H.
    - destruct (decide ("finetune" = "finetune")); [eauto|contradiction].
    - destruct (decide ("freeze" = "finetune")); [discriminate|].
      destruct (decide ("freeze" = "freeze")); [eauto|contradiction]. }
  destruct Hmode as [training Hmode]. unfold bind at 1. rewrite Hmode.
  destruct (train_loader epoch) as [|b bs]; [contradiction|].
  unfold enumerate. simpl. unfold bind, train_batch. rewrite Hfreq. reflexivity.
Qed.

End WholeRuns.

Lemma one_epoch_record_per_epoch_witness :
  exists w',
    snd (main_worker (F := toy_framework) 0 (toy_args "freeze" 2) empty_world) = w' /\
    epoch_numbers (stdout w') = [0; 1].
Proof.
  destruct (main_worker (F := toy_framework) 0 (toy_args "freeze" 2) empty_world)
    as [[st|e] w'] eqn:E; [|vm_compute in E; discriminate].
  destruct (one_epoch_record_per_epoch (F := toy_framework) 0 (toy_args "freeze" 2)
              empty_world w' st eq_refl E) as (s & st0 & Hs & Hn).
  exists w'. split; [reflexivity|]. rewrite Hn.
  assert (Es : s = 0).
  { vm_compute in Hs. injection Hs as <- _. reflexivity. }
  subst s. reflexivity.
Defined.

Lemma rerun_trains_nothing_witness :
  exists st w' st2,
    main_worker (F := toy_framework) 0 (toy_args "freeze" 2) empty_world = (Ok st, w') /\
    fst (main_worker (F := toy_framework) 0 (toy_args "freeze" 2) w') = Ok st2 /\
    Locals.best_val_acc st2 = Locals.best_val_acc st.
Proof.
  destruct (main_worker (F := toy_framework) 0 (toy_args "freeze" 2) empty_world)
    as [[st|e] w'] eqn:E; [|vm_compute in E; discriminate].
  destruct (rerun_trains_nothing (F := toy_framework) 0 (toy_args "freeze" 2)
              empty_world w' st eq_refl E) as (st2 & H2 & Hv & _).
  exists st, w', st2. split; [reflexivity|]. split; [rewrite H2; reflexivity|exact Hv].
Defined.

Lemma trained_parameters_witness :
  trainable toy_locals "fc.weight" = true <->
  In "fc.weight" (named_parameters (Locals.model toy_locals)) /\
  ("freeze" = "finetune" \/ In "fc.weight" fc_keys).
Proof.
  destruct (trained_parameters (F := toy_framework) (toy_args "freeze" 2) toy_locals)
    as [H _]; [vm_compute; reflexivity|exact (H "fc.weight")].
Defined.

Lemma print_freq_zero_raises_witness :
  epoch_body (F := toy_framework)
    (@Args.mk toy_framework "evaluate_cifar.py model.pth" toy_pretrained "cifar10"
       "freeze" 100 2 256 0 (3 # 10) (1 # 1000000) 0 "resnet50" 0 1)
    0 (fun _ => [toy_val_batch]) [toy_val_batch] [toy_test_batch]
    toy_locals 0 empty_world
  = (Raise ZeroDivisionError, empty_world).
Proof.
  apply print_freq_zero_raises.
  - reflexivity.
  - right. reflexivity.
  - discriminate.
Defined.

(** ** The evaluation loop over a whole loader *)

Section EvaluateDataset.
Context {F : Framework}.
Variable model : list (string * Tensor).










End EvaluateDataset.



